(** * Marketing campaign dashboard: metrics, alerts and the Deep Dive page

    A shallow embedding of [src/app.py]: the two business functions
    [overall_metrics] and [campaign_alerts], the pandas operations they call,
    and the Streamlit page router.

    Numbers.  A float column cell is a [float64]: an exact rational or [NaN]
    (the value pandas uses for a missing cell and returns for the mean or
    the quantile of no values).  Rounding and the infinities of IEEE
    binary64 are not modelled.  The [clicks] column is an [int64] column: its
    cells are integers in the signed 64-bit range and its sum wraps around.

    Tables.  A DataFrame is the ordered list of its rows; a Series is the
    list of one column's cells, in row order. *)

From Stdlib Require Import ZArith QArith Qcanon Qround.
From stdpp Require Import base numbers list strings sorting gmap.

Local Open Scope Z_scope.

(** ** Cells *)

Inductive float64 : Type :=
  | Num (q : Qc)
  | NaN.

Global Instance float64_eq_dec : EqDecision float64.
Proof. solve_decision. Defined.

(** [x < y] on floats: false as soon as one side is [NaN]. *)
Definition float_lt (x y : float64) : bool :=
  match x, y with
  | Num a, Num b => bool_decide (a < b)%Qc
  | _, _ => false
  end.

(** A decimal literal [n / d]. *)
Definition dec (n : Z) (d : positive) : float64 := Num (Q2Qc (n # d)).

(** ** The campaign table *)

(** One row per campaign; [clicks] holds an [int64] value. *)
Record Row : Type := mkRow {
  campaign_id : Z;
  campaign_type : string;
  conversion_rate : float64;
  cac : float64;
  roi_percent : float64;
  clicks : Z
}.

Global Instance Row_eq_dec : EqDecision Row.
Proof. solve_decision. Defined.

Abbreviation DataFrame := (list Row).

(** [df[name]]: one column as a Series. *)
Definition col {A : Type} (field : Row → A) (df : DataFrame) : list A :=
  field <$> df.

(** [df[mask]]: boolean indexing, the rows whose mask entry is [True],
    in row order. *)
Fixpoint df_mask (df : DataFrame) (mask : list bool) : DataFrame :=
  match df, mask with
  | row :: df', b :: mask' =>
      if b then row :: df_mask df' mask' else df_mask df' mask'
  | _, _ => []
  end.

(** ** Series reductions (pandas defaults: [skipna=True]) *)

(** The cells that are not [NaN]. *)
Definition dropna (s : list float64) : list Qc :=
  omap (λ x, match x with Num q => Some q | NaN => None end) s.

Definition Qc_sum (xs : list Qc) : Qc := foldl Qcplus 0%Qc xs.

(** [Series.mean()]: the mean of the non-missing cells, [NaN] when there
    is none. *)
Definition Series_mean (s : list float64) : float64 :=
  match dropna s with
  | [] => NaN
  | xs => Num (Qc_sum xs / Qc_of_Z (Z.of_nat (length xs)))%Qc
  end.

(** The value of an integer in signed 64-bit two's complement: the
    representative of [z] modulo 2^64 in the range from -2^63 to 2^63 - 1. *)
Definition wrap64 (z : Z) : Z := (z + 2 ^ 63) `mod` 2 ^ 64 - 2 ^ 63.

Definition int64 (z : Z) : Prop := - 2 ^ 63 ≤ z < 2 ^ 63.

(** [Series.sum()] of an [int64] column: accumulation from 0 in 64-bit
    arithmetic, which wraps around without an error. *)
Definition Series_sum (s : list Z) : Z := foldl (λ acc x, wrap64 (acc + x)) 0 s.

(** The exact sum of the [clicks] column, as an unbounded integer. *)
Definition sum_clicks (s : list Z) : Z := foldr Z.add 0 s.

(** [numpy.percentile(values, q, method="linear")] on a non-empty array,
    for a fraction [0 <= q <= 1]: with the values sorted ascending and
    [h = (n - 1) * q], interpolate between positions [floor h] and
    [floor h + 1] (the last position when that is out of range). *)
Definition percentile_linear (values : list Qc) (q : Qc) : Qc :=
  let sorted := merge_sort Qcle values in
  let n := Z.of_nat (length sorted) in
  let h := (Qc_of_Z (n - 1) * q)%Qc in
  let lo := Qfloor h in
  let hi := Z.min (lo + 1) (n - 1) in
  let gamma := (h - Qc_of_Z lo)%Qc in
  let previous := default 0%Qc (sorted !! Z.to_nat lo) in
  let next := default 0%Qc (sorted !! Z.to_nat hi) in
  (previous + (next - previous) * gamma)%Qc.

(** [Series.quantile(q)] with the default [interpolation="linear"]: missing
    cells are dropped; [NaN] when nothing is left. *)
Definition Series_quantile (s : list float64) (q : Qc) : float64 :=
  match dropna s with
  | [] => NaN
  | xs => Num (percentile_linear xs q)
  end.

(** ** Business metrics *)

Record Metrics : Type := mkMetrics {
  avg_conversion : float64;
  avg_cac : float64;
  avg_roi : float64;
  total_clicks : Z
}.

Global Instance Metrics_eq_dec : EqDecision Metrics.
Proof. solve_decision. Defined.

Definition overall_metrics (df : DataFrame) : Metrics :=
  {| avg_conversion := Series_mean (col conversion_rate df);
     avg_cac := Series_mean (col cac df);
     avg_roi := Series_mean (col roi_percent df);
     total_clicks := Series_sum (col clicks df) |}.

(** ** Recommendation engine *)

Module Alert.
Record t : Type := mk {
  campaign_id : Z;
  issue : string;
  severity : string;
  recommendation : string
}.
End Alert.

Global Instance Alert_eq_dec : EqDecision Alert.t.
Proof. solve_decision. Defined.

(** The dict appended by the body of the first loop. *)
Definition low_conv_entry (row : Row) : Alert.t :=
  let severity := if float_lt (roi_percent row) (Num 0) then "High" else "Medium" in
  {| Alert.campaign_id := campaign_id row;
     Alert.issue := "Low Conversion Rate";
     Alert.severity := severity;
     Alert.recommendation := "Reallocate budget or test new creative/channel mix" |}.

(** The dict appended by the body of the second loop. *)
Definition low_roi_entry (row : Row) : Alert.t :=
  {| Alert.campaign_id := campaign_id row;
     Alert.issue := "Negative ROI";
     Alert.severity := "Critical";
     Alert.recommendation := "Pause campaign immediately and investigate CAC drivers" |}.

Definition quarter : Qc := Q2Qc (1 # 4).

(** [df[df["conversion_rate"] < df["conversion_rate"].quantile(0.25)]] *)
Definition low_conv_frame (df : DataFrame) : DataFrame :=
  let q := Series_quantile (col conversion_rate df) quarter in
  df_mask df ((λ x, float_lt x q) <$> col conversion_rate df).

(** [df[df["roi_percent"] < 0]] *)
Definition low_roi_frame (df : DataFrame) : DataFrame :=
  df_mask df ((λ x, float_lt x (Num 0)) <$> col roi_percent df).

(** The local list [alerts] is threaded through the two loops; the
    returned frame has one row per appended dict, in append order. *)
Definition campaign_alerts (df : DataFrame) : list Alert.t :=
  let alerts := [] in
  let low_conv := low_conv_frame df in
  let low_roi := low_roi_frame df in
  let alerts := foldl (λ alerts row, alerts ++ [low_conv_entry row]) alerts low_conv in
  let alerts := foldl (λ alerts row, alerts ++ [low_roi_entry row]) alerts low_roi in
  alerts.

(** The rows that pass each rule. *)
Definition below_quantile (df : DataFrame) (row : Row) : Prop :=
  float_lt (conversion_rate row) (Series_quantile (col conversion_rate df) quarter).

Definition negative_roi (row : Row) : Prop :=
  float_lt (roi_percent row) (Num 0).

Global Instance below_quantile_dec df row : Decision (below_quantile df row).
Proof. unfold below_quantile. apply _. Defined.

Global Instance negative_roi_dec row : Decision (negative_roi row).
Proof. unfold negative_roi. apply _. Defined.

(** The two kinds of alert. *)
Definition is_low_conversion (a : Alert.t) : Prop :=
  Alert.issue a = "Low Conversion Rate".

Definition is_negative_roi (a : Alert.t) : Prop :=
  Alert.issue a = "Negative ROI".

Global Instance is_low_conversion_dec a : Decision (is_low_conversion a).
Proof. unfold is_low_conversion. apply _. Defined.

Global Instance is_negative_roi_dec a : Decision (is_negative_roi a).
Proof. unfold is_negative_roi. apply _. Defined.

(** ** Streamlit rendering

    A run of the script emits widgets in order and either finishes or stops
    at the first uncaught Python exception (the script has no [try]); the
    widgets emitted before it stay on the page.  Figures are drawn by the
    plotting front-end and are recorded by their title only. *)

Record ChannelRow : Type := mkChannelRow {
  channel_used_clean : string;
  channel_avg_roi : float64;
  channel_avg_cac : float64
}.

Record SegmentRow : Type := mkSegmentRow {
  customer_segment : string;
  campaigns : Z;
  segment_avg_cac : float64;
  avg_conversion_rate : float64;
  segment_avg_roi : float64
}.

(** A formatted number: the format specification and the value it is
    applied to. *)
Inductive text : Type :=
  | fmt_percent2 (x : float64)     (* f"{x:.2%}" *)
  | fmt_dollar2 (x : float64)      (* f"${x:.2f}" *)
  | fmt_fixed1_pct (x : float64)   (* f"{x:.1f}%" *)
  | fmt_thousands (n : Z).         (* f"{n:,}" *)

Inductive widget : Type :=
  | st_title (s : string)
  | st_subheader (s : string)
  | st_metric (label : string) (value : text)
  | st_selectbox (label : string) (options : list Z)
  | st_plotly_chart (title : string)
  | st_markdown (bullets : list string)
  | st_caption (s : string)
  | st_dataframe (df : DataFrame)
  | st_dataframe_alerts (alerts : list Alert.t)
  | st_dataframe_segments (df : list SegmentRow).

Inductive exn : Type :=
  | IndexError
  | KeyError
  | TypeError.

Global Instance exn_eq_dec : EqDecision exn.
Proof. solve_decision. Defined.

Inductive outcome (A : Type) : Type :=
  | Done (a : A)
  | Raised (e : exn).
Global Arguments Done {A} a.
Global Arguments Raised {A} e.

Definition Render (A : Type) : Type := list widget * outcome A.

Global Instance Render_ret : MRet Render := λ A a, ([], Done a).
Global Instance Render_bind : MBind Render := λ A B f m,
  match m with
  | (ws, Done a) => let '(ws', r) := f a in (ws ++ ws', r)
  | (ws, Raised e) => (ws, Raised e)
  end.

Definition emit (w : widget) : Render unit := ([w], Done tt).
Definition raise {A : Type} (e : exn) : Render A := ([], Raised e).

Definition rendered {A : Type} (r : Render A) : list widget := r.1.
Definition result {A : Type} (r : Render A) : outcome A := r.2.

(** [s.iloc[i]] for a position [i >= 0]: [IndexError] when out of bounds. *)
Definition iloc {A : Type} (s : list A) (i : nat) : Render A :=
  match s !! i with
  | Some x => mret x
  | None => raise IndexError
  end.

(** [Series.unique()]: the distinct values in order of first appearance. *)
Definition unique (s : list Z) : list Z :=
  foldl (λ seen x, if decide (x ∈ seen) then seen else seen ++ [x]) [] s.

Inductive Page : Type :=
  | ExecutiveSummary
  | CampaignDeepDive
  | SegmentAnalysis
  | ChannelPerformance
  | TrendsRecommendations.

Global Instance Page_eq_dec : EqDecision Page.
Proof. solve_decision. Defined.

(** The value of the selectbox: one of its options, or [None] when it has
    no option. *)
Abbreviation Selection := (option Z).

(** [campaign_df[campaign_df["campaign_id"] == selected_campaign]] *)
Definition selected_rows (campaign_df : DataFrame) (selected_campaign : Selection)
    : DataFrame :=
  df_mask campaign_df
    ((λ id, bool_decide (Some id = selected_campaign)) <$> col campaign_id campaign_df).

Definition page_executive_summary (metrics : Metrics) (alerts_df : list Alert.t)
    : Render unit :=
  emit (st_title "Executive Summary – Marketing Performance");;
  emit (st_metric "Avg Conversion Rate" (fmt_percent2 (avg_conversion metrics)));;
  emit (st_metric "Avg CAC" (fmt_dollar2 (avg_cac metrics)));;
  emit (st_metric "Avg ROI" (fmt_fixed1_pct (avg_roi metrics)));;
  emit (st_metric "Total Clicks" (fmt_thousands (total_clicks metrics)));;
  emit (st_subheader "Which Campaigns Are Driving Results?");;
  emit (st_plotly_chart "Conversion Rate by Campaign Type");;
  emit (st_subheader "🚨 Executive Alerts");;
  emit (st_dataframe_alerts alerts_df).

Definition page_campaign_deep_dive (campaign_df : DataFrame)
    (selected_campaign : Selection) : Render unit :=
  emit (st_title "Campaign Deep Dive");;
  emit (st_selectbox "Select Campaign" (unique (col campaign_id campaign_df)));;
  let df := selected_rows campaign_df selected_campaign in
  x ← iloc (col conversion_rate df) 0;
  emit (st_metric "Conversion Rate" (fmt_percent2 x));;
  x ← iloc (col roi_percent df) 0;
  emit (st_metric "ROI" (fmt_fixed1_pct x));;
  x ← iloc (col cac df) 0;
  emit (st_metric "CAC" (fmt_dollar2 x));;
  emit (st_dataframe df).

Definition page_segment_analysis (segment_df : list SegmentRow) : Render unit :=
  emit (st_title "Customer Segment Performance");;
  emit (st_plotly_chart "Segment Value Map (Efficiency vs Performance)");;
  emit (st_dataframe_segments segment_df).

Definition page_channel_performance (channel_df : list ChannelRow) : Render unit :=
  emit (st_title "Channel Efficiency & ROI");;
  emit (st_plotly_chart "Average ROI by Channel");;
  emit (st_plotly_chart "Average CAC by Channel").

Definition page_trends (alerts_df : list Alert.t) : Render unit :=
  emit (st_title "Strategic Insights & Recommendations");;
  emit (st_subheader "📌 Key Recommendations");;
  emit (st_markdown
    [ "1. Pause underperforming campaigns with negative ROI immediately";
      "2. Shift budget toward high-ROI, low-CAC channels";
      "3. Double down on high-conversion customer segments";
      "4. Run creative and targeting experiments on medium-severity campaigns" ]);;
  emit (st_subheader "🚦 Campaign Risk Matrix");;
  emit (st_dataframe_alerts alerts_df).

(** The script, once the three tables are loaded: the metrics and the
    alerts are computed, the page chosen in the sidebar is rendered, then
    the footer.  [selected_campaign] is what the selectbox of the Deep Dive
    page returns, [now] the formatted clock. *)
Definition app (campaign_df : DataFrame) (channel_df : list ChannelRow)
    (segment_df : list SegmentRow) (page : Page)
    (selected_campaign : Selection) (now : string) : Render unit :=
  let metrics := overall_metrics campaign_df in
  let alerts_df := campaign_alerts campaign_df in
  match page with
  | ExecutiveSummary => page_executive_summary metrics alerts_df
  | CampaignDeepDive => page_campaign_deep_dive campaign_df selected_campaign
  | SegmentAnalysis => page_segment_analysis segment_df
  | ChannelPerformance => page_channel_performance channel_df
  | TrendsRecommendations => page_trends alerts_df
  end;;
  emit (st_caption now).

(** ** The object store

    Python passes [df] by reference.  To state that a call leaves its
    argument alone, the two business functions are also given over a store
    of objects: a frame is read through its reference, every derived frame,
    list and dict is a new object, and [alerts.append] updates the list
    object in place. *)

Abbreviation loc := positive.

Inductive object : Type :=
  | ODataFrame (rows : DataFrame)       (* a campaign table *)
  | OList (items : list Alert.t)        (* the Python list [alerts] *)
  | OAlertFrame (rows : list Alert.t)   (* [pd.DataFrame(alerts)] *)
  | ODict (m : Metrics).                (* the dict of [overall_metrics] *)

Global Instance object_eq_dec : EqDecision object.
Proof. solve_decision. Defined.

Definition Py (A : Type) : Type := gmap loc object → outcome (A * gmap loc object).

Global Instance Py_ret : MRet Py := λ A a h, Done (a, h).
Global Instance Py_bind : MBind Py := λ A B f m h,
  match m h with
  | Done (a, h') => f a h'
  | Raised e => Raised e
  end.

(** A new object, at a reference not in use. *)
Definition new (o : object) : Py loc := λ h,
  let l := fresh (dom h) in Done (l, <[l := o]> h).

(** [df[name]]: read a column of the frame at [df]. *)
Definition getitem {A : Type} (df : loc) (field : Row → A) : Py (list A) := λ h,
  match h !! df with
  | Some (ODataFrame rows) => Done (col field rows, h)
  | _ => Raised TypeError
  end.

(** [df[mask]]: a new frame. *)
Definition getitem_mask (df : loc) (mask : list bool) : Py loc := λ h,
  match h !! df with
  | Some (ODataFrame rows) => new (ODataFrame (df_mask rows mask)) h
  | _ => Raised TypeError
  end.

(** [df.iterrows()]: the rows of the frame at [df], in order. *)
Definition iterrows (df : loc) : Py (list Row) := λ h,
  match h !! df with
  | Some (ODataFrame rows) => Done (rows, h)
  | _ => Raised TypeError
  end.

(** [alerts.append(a)]: in place. *)
Definition append (alerts : loc) (a : Alert.t) : Py unit := λ h,
  match h !! alerts with
  | Some (OList items) => Done (tt, <[alerts := OList (items ++ [a])]> h)
  | _ => Raised TypeError
  end.

(** [pd.DataFrame(alerts)]: a new frame with the list's items as rows. *)
Definition DataFrame_of_list (alerts : loc) : Py loc := λ h,
  match h !! alerts with
  | Some (OList items) => new (OAlertFrame items) h
  | _ => Raised TypeError
  end.

(** [for x in xs: body(x)] *)
Fixpoint for_each {A : Type} (xs : list A) (body : A → Py unit) : Py unit :=
  match xs with
  | [] => mret tt
  | x :: xs' => body x;; for_each xs' body
  end.

Definition overall_metrics_py (df : loc) : Py loc :=
  conv ← getitem df conversion_rate;
  cacs ← getitem df cac;
  rois ← getitem df roi_percent;
  clk ← getitem df clicks;
  new (ODict {| avg_conversion := Series_mean conv;
                avg_cac := Series_mean cacs;
                avg_roi := Series_mean rois;
                total_clicks := Series_sum clk |}).

Definition campaign_alerts_py (df : loc) : Py loc :=
  alerts ← new (OList []);
  conv ← getitem df conversion_rate;
  conv' ← getitem df conversion_rate;
  low_conv ← getitem_mask df
    ((λ x, float_lt x (Series_quantile conv' quarter)) <$> conv);
  rois ← getitem df roi_percent;
  low_roi ← getitem_mask df ((λ x, float_lt x (Num 0)) <$> rois);
  rows ← iterrows low_conv;
  for_each rows (λ row, append alerts (low_conv_entry row));;
  rows ← iterrows low_roi;
  for_each rows (λ row, append alerts (low_roi_entry row));;
  DataFrame_of_list alerts.

(** Two calls in a row, the second in the store the first one left. *)
Definition twice {A : Type} (call : Py A) : Py (A * A) :=
  r1 ← call; r2 ← call; mret (r1, r2).

(** The two top-level calls of the script, on the one loaded table:
    [metrics = overall_metrics(campaign_df)], then
    [alerts_df = campaign_alerts(campaign_df)]. *)
Definition compute_metrics_and_alerts (campaign_df : loc) : Py (loc * loc) :=
  metrics ← overall_metrics_py campaign_df;
  alerts_df ← campaign_alerts_py campaign_df;
  mret (metrics, alerts_df).

(** ** Sample data *)

(** The table of scenario A. *)
Definition scenario_A : DataFrame :=
  [ mkRow 1 "email" (dec 10 100) (dec 20 1) (dec (-5) 1) 100;
    mkRow 2 "social" (dec 50 100) (dec 10 1) (dec 20 1) 200 ].

(** Two campaigns with the same conversion rate. *)
Definition same_rate : DataFrame :=
  [ mkRow 1 "email" (dec 30 100) (dec 20 1) (dec (-5) 1) 100;
    mkRow 2 "social" (dec 30 100) (dec 10 1) (dec 20 1) 200 ].

(** A store that holds the table of scenario A. *)
Definition store_A : gmap loc object := {[ 1%positive := ODataFrame scenario_A ]}.

(** Two campaigns with 2^62 clicks each. *)
Definition many_clicks : DataFrame :=
  [ mkRow 1 "email" (dec 10 100) (dec 20 1) (dec (-5) 1) (2 ^ 62);
    mkRow 2 "social" (dec 50 100) (dec 10 1) (dec 20 1) (2 ^ 62) ].

(** Two campaigns that both lose money. *)
Definition losing : DataFrame :=
  [ mkRow 7 "email" (dec 10 100) (dec 20 1) (dec (-5) 1) 100;
    mkRow 8 "social" (dec 50 100) (dec 10 1) (dec (-1) 1) 200 ].

(** Two rows for the same campaign identifier. *)
Definition repeated_id : DataFrame :=
  [ mkRow 1 "email" (dec 10 100) (dec 20 1) (dec (-5) 1) 100;
    mkRow 2 "social" (dec 50 100) (dec 10 1) (dec 20 1) 200;
    mkRow 1 "display" (dec 70 100) (dec 30 1) (dec 40 1) 300 ].

(** * Properties *)

(** Closed equations between values that contain rationals are settled by
    evaluating the decision procedure for equality. *)
Ltac by_eval :=
  match goal with
  | |- ?x = ?y => apply (bool_decide_eq_true_1 (x = y)); vm_compute; reflexivity
  end.

(** ** Scenario A *)

Example scenario_A_metrics :
  overall_metrics scenario_A =
  mkMetrics (dec 30 100) (dec 15 1) (dec 75 10) 300.
Proof. by_eval. Qed.

Example scenario_A_alerts :
  campaign_alerts scenario_A =
  [ Alert.mk 1 "Low Conversion Rate" "High"
      "Reallocate budget or test new creative/channel mix";
    Alert.mk 1 "Negative ROI" "Critical"
      "Pause campaign immediately and investigate CAC drivers" ].
Proof. by_eval. Qed.

Example campaign_alerts_py_A :
  campaign_alerts_py 1%positive store_A
  = Done (5%positive,
          <[ 5%positive := OAlertFrame (campaign_alerts scenario_A) ]>
          (<[ 4%positive := ODataFrame (low_roi_frame scenario_A) ]>
          (<[ 3%positive := ODataFrame (low_conv_frame scenario_A) ]>
          (<[ 2%positive := OList (campaign_alerts scenario_A) ]> store_A)))).
Proof. vm_compute. reflexivity. Qed.

(** ** Boolean indexing and the two loops *)

Lemma df_mask_filter {A : Type} (field : Row → A) (p : A → bool) (df : DataFrame) :
  df_mask df (p <$> col field df) = filter (λ row, p (field row)) df.
Proof.
  unfold col. induction df as [|row df IH]; [done|].
  cbn [fmap list_fmap df_mask]. rewrite filter_cons.
  destruct (p (field row)); simpl; by f_equal.
Qed.

Lemma foldl_append {A B : Type} (entry : A → B) (rows : list A) (acc : list B) :
  foldl (λ alerts row, alerts ++ [entry row]) acc rows = acc ++ (entry <$> rows).
Proof.
  revert acc. induction rows as [|row rows IH]; intros acc; simpl.
  - by rewrite app_nil_r.
  - rewrite IH. by rewrite <-app_assoc.
Qed.

Lemma low_conv_frame_filter (df : DataFrame) :
  low_conv_frame df = filter (below_quantile df) df.
Proof. unfold low_conv_frame. cbv zeta. by rewrite df_mask_filter. Qed.

Lemma low_roi_frame_filter (df : DataFrame) :
  low_roi_frame df = filter negative_roi df.
Proof. unfold low_roi_frame. by rewrite df_mask_filter. Qed.

Lemma campaign_alerts_app (df : DataFrame) :
  campaign_alerts df =
    (low_conv_entry <$> filter (below_quantile df) df) ++
    (low_roi_entry <$> filter negative_roi df).
Proof.
  unfold campaign_alerts. cbv zeta.
  rewrite !foldl_append, low_conv_frame_filter, low_roi_frame_filter. done.
Qed.

Lemma filter_fmap_all {A B : Type} (P : B → Prop) `{!∀ b, Decision (P b)}
    (f : A → B) (l : list A) :
  (∀ x, P (f x)) → filter P (f <$> l) = f <$> l.
Proof.
  intros HP. induction l as [|x l IH]; [done|].
  cbn [fmap list_fmap]. rewrite filter_cons, decide_True by apply HP. by f_equal.
Qed.

Lemma filter_fmap_none {A B : Type} (P : B → Prop) `{!∀ b, Decision (P b)}
    (f : A → B) (l : list A) :
  (∀ x, ¬ P (f x)) → filter P (f <$> l) = [].
Proof.
  intros HP. induction l as [|x l IH]; [done|].
  cbn [fmap list_fmap]. rewrite filter_cons, decide_False by apply HP. done.
Qed.

Lemma negative_roi_alerts_of (df : DataFrame) :
  filter is_negative_roi (campaign_alerts df) = low_roi_entry <$> filter negative_roi df.
Proof.
  rewrite campaign_alerts_app, filter_app.
  rewrite filter_fmap_none by (intros row; unfold is_negative_roi; simpl; discriminate).
  rewrite filter_fmap_all by done. done.
Qed.

Lemma low_conversion_alerts_of (df : DataFrame) :
  filter is_low_conversion (campaign_alerts df)
  = low_conv_entry <$> filter (below_quantile df) df.
Proof.
  rewrite campaign_alerts_app, filter_app.
  rewrite filter_fmap_all by done.
  rewrite filter_fmap_none by (intros row; unfold is_low_conversion; simpl; discriminate).
  by rewrite app_nil_r.
Qed.

(** ** Alert engine *)


(** C3: the Negative ROI alerts are, position by position, the rows with
    [roi_percent < 0]: one alert per such row, with severity Critical and
    the fixed recommendation, and no other; a row whose ROI is exactly 0
    adds none. *)
Theorem negative_roi_alerts_match_rows (T : DataFrame) :
  filter is_negative_roi (campaign_alerts T) =
    (λ row, {| Alert.campaign_id := campaign_id row;
               Alert.issue := "Negative ROI";
               Alert.severity := "Critical";
               Alert.recommendation :=
                 "Pause campaign immediately and investigate CAC drivers" |})
    <$> filter (λ row, float_lt (roi_percent row) (Num 0)) T
  ∧ length (filter is_negative_roi (campaign_alerts T)) =
      length (filter (λ row, float_lt (roi_percent row) (Num 0)) T)
  ∧ ∀ T1 T2 id type conv cost n,
      filter is_negative_roi (campaign_alerts (T1 ++ mkRow id type conv cost (Num 0) n :: T2))
      = filter is_negative_roi (campaign_alerts (T1 ++ T2)).
Proof.
  split_and!.
  - apply negative_roi_alerts_of.
  - by rewrite negative_roi_alerts_of, length_fmap.
  - intros. rewrite !negative_roi_alerts_of, !filter_app, filter_cons.
    rewrite decide_False; [done|]. unfold negative_roi. simpl. tauto.
Qed.

(** C4: the Low Conversion Rate alerts are, position by position, the rows
    whose [conversion_rate] is strictly below the linear-interpolation
    0.25-quantile of the column, so there are as many; the severity is High
    when that row's ROI is negative and Medium otherwise, and the
    recommendation is the fixed one. *)
Theorem low_conversion_alerts_match_rows (T : DataFrame) :
  let q := Series_quantile (col conversion_rate T) quarter in
  let below := filter (λ row, float_lt (conversion_rate row) q) T in
  length (filter is_low_conversion (campaign_alerts T)) = length below
  ∧ filter is_low_conversion (campaign_alerts T) =
      (λ row, {| Alert.campaign_id := campaign_id row;
                 Alert.issue := "Low Conversion Rate";
                 Alert.severity :=
                   if float_lt (roi_percent row) (Num 0) then "High" else "Medium";
                 Alert.recommendation :=
                   "Reallocate budget or test new creative/channel mix" |})
      <$> below.
Proof.
  cbv zeta. rewrite low_conversion_alerts_of. split; [|done].
  by rewrite length_fmap.
Qed.

(** ** Metrics engine *)

Lemma wrap64_in_range (z : Z) : int64 (wrap64 z).
Proof.
  unfold int64, wrap64.
  pose proof (Z.mod_pos_bound (z + 2 ^ 63) (2 ^ 64) ltac:(lia)). lia.
Qed.

Lemma wrap64_small (z : Z) : int64 z → wrap64 z = z.
Proof.
  unfold int64, wrap64. intros Hz. rewrite Z.mod_small by lia. lia.
Qed.

Lemma wrap64_add_l (a b : Z) : wrap64 (wrap64 a + b) = wrap64 (a + b).
Proof.
  unfold wrap64. f_equal.
  replace ((a + 2 ^ 63) `mod` 2 ^ 64 - 2 ^ 63 + b + 2 ^ 63)
    with ((a + 2 ^ 63) `mod` 2 ^ 64 + b) by lia.
  rewrite Zplus_mod_idemp_l. f_equal. lia.
Qed.

Lemma Series_sum_from (s : list Z) (acc : Z) :
  foldl (λ acc x, wrap64 (acc + x)) (wrap64 acc) s = wrap64 (acc + sum_clicks s).
Proof.
  revert acc. induction s as [|x s IH]; intros acc; simpl.
  - by rewrite Z.add_0_r.
  - rewrite wrap64_add_l, IH. f_equal. lia.
Qed.

(** The 64-bit sum is the exact sum, wrapped once. *)
Lemma Series_sum_wrap (s : list Z) : Series_sum s = wrap64 (sum_clicks s).
Proof.
  unfold Series_sum. change 0 with (wrap64 0) at 1.
  by rewrite Series_sum_from, Z.add_0_l.
Qed.

(** C6, as stated, fails: the sum is taken in 64-bit arithmetic.  Two rows
    of 2^62 clicks each, both valid [int64] values, have the sum 2^63, and
    [total_clicks] is -2^63. *)
Lemma total_clicks_wraps_around :
  Forall int64 (col clicks many_clicks)
  ∧ sum_clicks (col clicks many_clicks) = 2 ^ 63
  ∧ total_clicks (overall_metrics many_clicks) = - 2 ^ 63
  ∧ ¬ (∀ T : DataFrame,
         total_clicks (overall_metrics T) = sum_clicks (col clicks T)).
Proof.
  split_and!.
  - repeat constructor; unfold int64; simpl; lia.
  - reflexivity.
  - reflexivity.
  - intros Hclaim. specialize (Hclaim many_clicks). discriminate Hclaim.
Qed.

(** C6, amended: when the sum of the [clicks] column fits in a signed
    64-bit integer, [total_clicks] is that sum; on the empty table it is 0.
    (On any table it is the sum reduced modulo 2^64 into the 64-bit
    range.) *)
Theorem total_clicks_is_sum_within_int64 (T : DataFrame)
    (Hfits : int64 (sum_clicks (col clicks T))) :
  total_clicks (overall_metrics T) = sum_clicks (col clicks T)
  ∧ total_clicks (overall_metrics T) = foldr (λ row acc, clicks row + acc) 0 T
  ∧ total_clicks (overall_metrics []) = 0
  ∧ (∀ T' : DataFrame,
       total_clicks (overall_metrics T') = wrap64 (sum_clicks (col clicks T'))
       ∧ int64 (total_clicks (overall_metrics T'))).
Proof.
  cbn [overall_metrics total_clicks].
  assert (Series_sum (col clicks T) = sum_clicks (col clicks T)) as Hsum.
  { rewrite Series_sum_wrap. by apply wrap64_small. }
  split_and!.
  - done.
  - rewrite Hsum. clear Hfits Hsum. unfold sum_clicks, col.
    induction T as [|row T' IH]; simpl; [done|]. by f_equal.
  - done.
  - intros T'. rewrite Series_sum_wrap. split; [done|]. apply wrap64_in_range.
Qed.

Lemma total_clicks_is_sum_within_int64_scenario_A :
  total_clicks (overall_metrics scenario_A) = sum_clicks (col clicks scenario_A)
  ∧ total_clicks (overall_metrics scenario_A)
    = foldr (λ row acc, clicks row + acc) 0 scenario_A
  ∧ total_clicks (overall_metrics []) = 0
  ∧ (∀ T' : DataFrame,
       total_clicks (overall_metrics T') = wrap64 (sum_clicks (col clicks T'))
       ∧ int64 (total_clicks (overall_metrics T'))).
Proof.
  apply (total_clicks_is_sum_within_int64 scenario_A).
  unfold int64. simpl. lia.
Defined.

Lemma Series_mean_NaN (s : list float64) :
  Series_mean s = NaN ↔ dropna s = [].
Proof.
  unfold Series_mean. destruct (dropna s); split; intros; done.
Qed.

(** C2: on the empty table the three means are [NaN], which is no number
    (in particular not zero), and [total_clicks] is 0; on any table a mean
    is [NaN] exactly when its column has no value. *)
Theorem empty_table_metrics :
  overall_metrics [] =
    {| avg_conversion := NaN; avg_cac := NaN; avg_roi := NaN; total_clicks := 0 |}
  ∧ (∀ q, avg_conversion (overall_metrics []) ≠ Num q
          ∧ avg_cac (overall_metrics []) ≠ Num q
          ∧ avg_roi (overall_metrics []) ≠ Num q)
  ∧ (∀ T, (avg_conversion (overall_metrics T) = NaN ↔ dropna (col conversion_rate T) = [])
        ∧ (avg_cac (overall_metrics T) = NaN ↔ dropna (col cac T) = [])
        ∧ (avg_roi (overall_metrics T) = NaN ↔ dropna (col roi_percent T) = [])).
Proof.
  split_and!.
  - reflexivity.
  - intros q. cbn. split_and!; discriminate.
  - intros T. cbn [overall_metrics avg_conversion avg_cac avg_roi].
    split_and!; apply Series_mean_NaN.
Qed.

Lemma Qc_sum_from (xs : list Qc) (acc : Qc) :
  foldl Qcplus acc xs = (acc + Qc_sum xs)%Qc.
Proof.
  unfold Qc_sum. revert acc. induction xs as [|x xs IH]; intros acc; simpl.
  - by rewrite Qcplus_0_r.
  - rewrite IH, (IH (0 + x)%Qc). ring.
Qed.

Lemma Qc_sum_cons (x : Qc) (xs : list Qc) :
  Qc_sum (x :: xs) = (x + Qc_sum xs)%Qc.
Proof. unfold Qc_sum at 1. simpl. rewrite Qc_sum_from. ring. Qed.

Lemma Qc_sum_bounds (xs : list Qc) :
  (∀ x, x ∈ xs → (0 ≤ x ≤ 1)%Qc) →
  (0 ≤ Qc_sum xs ≤ Qc_of_Z (Z.of_nat (length xs)))%Qc.
Proof.
  induction xs as [|x xs IH]; intros Hall.
  - change (0 ≤ 0 ≤ Qc_of_Z 0)%Qc. rewrite Z2Qc_inj_0. split; apply Qcle_refl.
  - rewrite Qc_sum_cons. destruct IH as [IH0 IH1].
    { intros y Hy. apply Hall. by right. }
    destruct (Hall x) as [Hx0 Hx1]; [by left|].
    cbn [length]. rewrite Nat2Z.inj_succ, <-Z.add_1_l, Z2Qc_inj_add, Z2Qc_inj_1.
    split.
    + rewrite <-(Qcplus_0_l 0). by apply Qcplus_le_compat.
    + by apply Qcplus_le_compat.
Qed.

Lemma dropna_all_Num (s : list float64) :
  (∀ x, x ∈ s → ∃ q, x = Num q) → length (dropna s) = length s.
Proof.
  induction s as [|x s IH]; intros Hall; [done|].
  destruct (Hall x) as [q ->]; [by left|].
  unfold dropna in *. cbn. f_equal. apply IH. intros y Hy. apply Hall. by right.
Qed.

Lemma elem_of_dropna (s : list float64) (q : Qc) :
  q ∈ dropna s ↔ Num q ∈ s.
Proof.
  unfold dropna. rewrite list_elem_of_omap. split.
  - intros (x & Hx & Hq). destruct x; by simplify_eq.
  - intros Hq. by exists (Num q).
Qed.

Lemma mean_bounds (xs : list Qc) :
  xs ≠ [] → (∀ x, x ∈ xs → (0 ≤ x ≤ 1)%Qc) →
  (0 ≤ Qc_sum xs / Qc_of_Z (Z.of_nat (length xs)) ≤ 1)%Qc.
Proof.
  intros Hne Hall. destruct (Qc_sum_bounds xs Hall) as [H0 H1].
  set (n := Qc_of_Z (Z.of_nat (length xs))) in *.
  assert (0 < n)%Qc as Hn.
  { unfold n. rewrite <-Z2Qc_inj_0. apply (proj1 (Z2Qc_inj_lt 0 _)). destruct xs; [done|]. cbn [length]. lia. }
  assert (0 < / n)%Qc as Hinv by by apply Qcinv_pos.
  unfold Qcdiv. split.
  - apply Qcmult_nonneg_nonneg; [done|]. by apply Qclt_le_weak.
  - rewrite <-(Qcmult_inv_r n).
    + by apply Qcmult_le_mono_pos_r.
    + by apply not_symmetry, Qclt_not_eq.
Qed.

(** C7: on a non-empty table whose conversion rates all lie in [0,1], the
    average conversion is a number in [0,1]; on the empty table it is
    [NaN]. *)
Theorem avg_conversion_in_unit_interval (T : DataFrame)
    (Hne : T ≠ [])
    (Hinv : ∀ row, row ∈ T → ∃ q, conversion_rate row = Num q ∧ (0 ≤ q ≤ 1)%Qc) :
  (∃ m, avg_conversion (overall_metrics T) = Num m ∧ (0 ≤ m ≤ 1)%Qc)
  ∧ avg_conversion (overall_metrics []) = NaN.
Proof.
  split; [|done]. cbn [overall_metrics avg_conversion]. unfold Series_mean.
  assert (∀ q, q ∈ dropna (col conversion_rate T) → (0 ≤ q ≤ 1)%Qc) as Hall.
  { intros q Hq. apply elem_of_dropna in Hq. unfold col in Hq.
    apply list_elem_of_fmap in Hq as (row & Hrow & Hin).
    destruct (Hinv row Hin) as (q' & Hq' & Hb). rewrite Hq' in Hrow. by simplify_eq. }
  assert (dropna (col conversion_rate T) ≠ []) as Hne'.
  { intros Hnil. apply (f_equal length) in Hnil.
    rewrite dropna_all_Num in Hnil.
    - unfold col in Hnil. rewrite length_fmap in Hnil. by destruct T.
    - intros x Hx. unfold col in Hx. apply list_elem_of_fmap in Hx as (row & -> & Hin).
      destruct (Hinv row Hin) as (q & -> & _). by exists q. }
  destruct (dropna (col conversion_rate T)) as [|x xs] eqn:Hd; [done|].
  eexists. split; [done|]. by apply mean_bounds.
Qed.

Lemma avg_conversion_in_unit_interval_scenario_A :
  (∃ m, avg_conversion (overall_metrics scenario_A) = Num m ∧ (0 ≤ m ≤ 1)%Qc)
  ∧ avg_conversion (overall_metrics []) = NaN.
Proof.
  apply (avg_conversion_in_unit_interval scenario_A).
  - discriminate.
  - intros row Hin. unfold scenario_A in Hin.
    apply elem_of_cons in Hin as [->|Hin]; [|apply elem_of_cons in Hin as [->|Hin]].
    + eexists. split; [reflexivity|]. split; by vm_compute.
    + eexists. split; [reflexivity|]. split; by vm_compute.
    + by apply elem_of_nil in Hin.
Defined.

(** ** The 0.25-quantile *)

Lemma Qfloor_quarter (m : Z) :
  Qfloor (Qc_of_Z m * quarter)%Qc = (m `div` 4)%Z.
Proof.
  rewrite Zdiv_Qdiv. apply Qfloor_comp.
  unfold Qcmult, Q2Qc, quarter, Qc_of_Z. cbn [this].
  rewrite !Qred_correct. reflexivity.
Qed.

Lemma lookup_constant {A : Type} (v : A) (s : list A) (i : nat) :
  Forall (λ x, x = v) s → (i < length s)%nat → s !! i = Some v.
Proof.
  intros Hall Hi. destruct (lookup_lt_is_Some_2 s i Hi) as [x Hx].
  rewrite Hx. f_equal. by apply (Forall_lookup_1 _ _ _ _ Hall Hx).
Qed.

Lemma percentile_linear_constant (xs : list Qc) (v : Qc) :
  xs ≠ [] → Forall (λ x, x = v) xs → percentile_linear xs quarter = v.
Proof.
  intros Hne Hall. unfold percentile_linear. cbv zeta.
  assert (Forall (λ x, x = v) (merge_sort Qcle xs)) as Hs.
  { by rewrite merge_sort_Permutation. }
  assert (length (merge_sort Qcle xs) = length xs) as Hlen.
  { by rewrite merge_sort_Permutation. }
  assert (0 < length xs)%nat as Hpos by (destruct xs; [done|simpl; lia]).
  rewrite Qfloor_quarter, Hlen.
  set (m := (Z.of_nat (length xs) - 1)%Z).
  assert (0 ≤ m `div` 4 ≤ m)%Z as Hlo.
  { split; [apply Z.div_pos; lia|]. apply Z.div_le_upper_bound; lia. }
  rewrite (lookup_constant v) by (done || lia).
  rewrite (lookup_constant v) by (done || lia).
  simpl. ring.
Qed.

Lemma float_lt_irrefl (x : float64) : float_lt x x = false.
Proof.
  destruct x as [q|]; [|done]. simpl.
  apply bool_decide_eq_false_2. apply (irreflexivity Qclt).
Qed.

Lemma dropna_constant_Num (s : list float64) (q : Qc) :
  Forall (λ x, x = Num q) s → dropna s = replicate (length s) q.
Proof.
  unfold dropna. induction 1 as [|x s -> _ IH]; [done|]. cbn. by f_equal.
Qed.

Lemma dropna_constant_NaN (s : list float64) :
  Forall (λ x, x = NaN) s → dropna s = [].
Proof.
  unfold dropna. induction 1 as [|x s -> _ IH]; [done|]. by cbn.
Qed.

Lemma Series_quantile_constant (s : list float64) (v : float64) :
  s ≠ [] → Forall (λ x, x = v) s → Series_quantile s quarter = v.
Proof.
  intros Hne Hall. unfold Series_quantile. destruct v as [q|].
  - rewrite (dropna_constant_Num s q Hall).
    destruct s as [|x s]; [done|]. cbn [length replicate]. f_equal.
    apply percentile_linear_constant; [done|].
    apply (Forall_replicate (λ x, x = q) (S (length s))). done.
  - by rewrite dropna_constant_NaN.
Qed.

Lemma filter_nil_all {A : Type} (P : A → Prop) `{!∀ x, Decision (P x)} (l : list A) :
  (∀ x, x ∈ l → ¬ P x) → filter P l = [].
Proof.
  induction l as [|x l IH]; intros Hall; [done|].
  rewrite filter_cons, decide_False by (apply Hall; by left).
  apply IH. intros y Hy. apply Hall. by right.
Qed.

(** C10: when every row of a non-empty table has the same conversion rate,
    the 0.25-quantile of the column is that value and, the comparison being
    strict, no row is below it: there is no Low Conversion Rate alert. *)
Theorem constant_conversion_rate_no_low_alert (T : DataFrame) (v : float64)
    (Hne : T ≠ [])
    (Hconst : ∀ row, row ∈ T → conversion_rate row = v) :
  Series_quantile (col conversion_rate T) quarter = v
  ∧ low_conv_frame T = []
  ∧ filter is_low_conversion (campaign_alerts T) = [].
Proof.
  assert (Series_quantile (col conversion_rate T) quarter = v) as Hq.
  { apply Series_quantile_constant.
    - unfold col. by destruct T.
    - unfold col. apply Forall_fmap, Forall_forall. intros row Hin. by apply Hconst. }
  assert (filter (below_quantile T) T = []) as Hnone.
  { apply filter_nil_all. intros row Hin. unfold below_quantile.
    rewrite Hq, (Hconst row Hin), float_lt_irrefl. intros []. }
  split_and!; [done| |].
  - by rewrite low_conv_frame_filter.
  - by rewrite low_conversion_alerts_of, Hnone.
Qed.

Lemma constant_conversion_rate_no_low_alert_same_rate :
  Series_quantile (col conversion_rate same_rate) quarter = dec 30 100
  ∧ low_conv_frame same_rate = []
  ∧ filter is_low_conversion (campaign_alerts same_rate) = [].
Proof.
  apply constant_conversion_rate_no_low_alert.
  - discriminate.
  - intros row Hin. unfold same_rate in Hin.
    apply elem_of_cons in Hin as [->|Hin]; [|apply elem_of_cons in Hin as [->|Hin]].
    + reflexivity.
    + reflexivity.
    + by apply elem_of_nil in Hin.
Defined.

(** With [m = n - 1], the 0.25-quantile of [n] values interpolates between
    the sorted values at positions [m / 4] and [m / 4 + 1], at the fraction
    [(m mod 4) / 4]. *)
Lemma percentile_linear_quarter (xs : list Qc) :
  let sorted := merge_sort Qcle xs in
  let m := (Z.of_nat (length xs) - 1)%Z in
  let previous := default 0%Qc (sorted !! Z.to_nat (m `div` 4)) in
  let next := default 0%Qc (sorted !! Z.to_nat (Z.min (m `div` 4 + 1) m)) in
  percentile_linear xs quarter =
    (previous + (next - previous) * (Qc_of_Z (m `mod` 4) * quarter))%Qc.
Proof.
  cbv zeta. unfold percentile_linear. cbv zeta.
  assert (length (merge_sort Qcle xs) = length xs) as ->.
  { by rewrite merge_sort_Permutation. }
  rewrite Qfloor_quarter.
  set (m := (Z.of_nat (length xs) - 1)%Z).
  assert (Qc_of_Z m * quarter - Qc_of_Z (m `div` 4)
          = Qc_of_Z (m `mod` 4) * quarter)%Qc as ->; [|done].
  rewrite (Z.div_mod m 4) at 1 by lia.
  rewrite Z2Qc_inj_add, Z2Qc_inj_mul.
  assert (Qc_of_Z 4 * quarter = 1)%Qc as H4 by by_eval.
  transitivity ((Qc_of_Z 4 * quarter) * Qc_of_Z (m `div` 4)
                + Qc_of_Z (m `mod` 4) * quarter - Qc_of_Z (m `div` 4))%Qc; [ring|].
  rewrite H4. ring.
Qed.

Example quantile_of_five :
  Series_quantile [dec 5 1; dec 1 1; NaN; dec 4 1; dec 2 1; dec 3 1] quarter = dec 2 1.
Proof. by_eval. Qed.

Example quantile_of_four :
  Series_quantile [dec 4 1; dec 1 1; dec 3 1; dec 2 1] quarter = dec 175 100.
Proof. by_eval. Qed.

Example quantile_of_one : Series_quantile [dec 7 10] quarter = dec 7 10.
Proof. by_eval. Qed.

Example quantile_of_none : Series_quantile [NaN; NaN] quarter = NaN.
Proof. by_eval. Qed.

(** ** Campaign Deep Dive *)

Lemma selected_rows_filter (T : DataFrame) (sel : Selection) :
  selected_rows T sel = filter (λ row, bool_decide (Some (campaign_id row) = sel)) T.
Proof. unfold selected_rows. by rewrite df_mask_filter. Qed.

Lemma elem_of_selected_rows (T : DataFrame) (sel : Selection) (row : Row) :
  row ∈ selected_rows T sel ↔ row ∈ T ∧ Some (campaign_id row) = sel.
Proof.
  rewrite selected_rows_filter, list_elem_of_filter, bool_decide_spec. tauto.
Qed.

Lemma selected_rows_miss (T : DataFrame) (id : Z) :
  id ∉ col campaign_id T → selected_rows T (Some id) = [].
Proof.
  intros Hmiss. rewrite selected_rows_filter. apply filter_nil_all.
  intros row Hin Heq. apply bool_decide_unpack in Heq. simplify_eq.
  apply Hmiss. unfold col. by apply list_elem_of_fmap_2.
Qed.

Lemma selected_rows_hit (T : DataFrame) (id : Z) :
  id ∈ col campaign_id T → selected_rows T (Some id) ≠ [].
Proof.
  unfold col. intros (row & -> & Hin)%list_elem_of_fmap Hnil.
  assert (row ∈ selected_rows T (Some (campaign_id row))) as Hrow.
  { by apply elem_of_selected_rows. }
  rewrite Hnil in Hrow. by apply elem_of_nil in Hrow.
Qed.

Lemma elem_of_unique_from (s seen : list Z) (x : Z) :
  x ∈ foldl (λ seen x, if decide (x ∈ seen) then seen else seen ++ [x]) seen s
  ↔ x ∈ seen ∨ x ∈ s.
Proof.
  revert seen. induction s as [|y s IH]; intros seen; simpl.
  - rewrite elem_of_nil. tauto.
  - rewrite IH, elem_of_cons. destruct (decide (y ∈ seen)) as [Hy|Hy].
    + split; [tauto|]. intros [?|[->|?]]; tauto.
    + rewrite elem_of_app, list_elem_of_singleton. tauto.
Qed.

Lemma elem_of_unique (s : list Z) (x : Z) : x ∈ unique s ↔ x ∈ s.
Proof. unfold unique. rewrite elem_of_unique_from, elem_of_nil. tauto. Qed.

(** The page, by cases on the filtered frame: [iloc[0]] of the first metric
    raises on an empty frame, before the table is reached. *)
Lemma page_campaign_deep_dive_cases (T : DataFrame) (sel : Selection) :
  page_campaign_deep_dive T sel =
    match selected_rows T sel with
    | [] =>
        ([ st_title "Campaign Deep Dive";
           st_selectbox "Select Campaign" (unique (col campaign_id T)) ],
         Raised IndexError)
    | row :: rest =>
        ([ st_title "Campaign Deep Dive";
           st_selectbox "Select Campaign" (unique (col campaign_id T));
           st_metric "Conversion Rate" (fmt_percent2 (conversion_rate row));
           st_metric "ROI" (fmt_fixed1_pct (roi_percent row));
           st_metric "CAC" (fmt_dollar2 (cac row));
           st_dataframe (row :: rest) ],
         Done tt)
    end.
Proof.
  unfold page_campaign_deep_dive. destruct (selected_rows T sel); reflexivity.
Qed.

(** C1, as stated, fails: with an identifier that is not in the table (and
    on the empty table, where the selectbox has no option and returns
    [None]) the filtered frame is empty and the page stops with
    [IndexError] at the first metric; no table is rendered. *)
Lemma deep_dive_unknown_id_raises :
  (3 ∉ col campaign_id scenario_A)
  ∧ selected_rows scenario_A (Some 3) = []
  ∧ page_campaign_deep_dive scenario_A (Some 3) =
      ([ st_title "Campaign Deep Dive"; st_selectbox "Select Campaign" [1; 2] ],
       Raised IndexError)
  ∧ page_campaign_deep_dive [] None =
      ([ st_title "Campaign Deep Dive"; st_selectbox "Select Campaign" [] ],
       Raised IndexError)
  ∧ app scenario_A [] [] CampaignDeepDive (Some 3) "2026-01-01 00:00" =
      ([ st_title "Campaign Deep Dive"; st_selectbox "Select Campaign" [1; 2] ],
       Raised IndexError)
  ∧ ¬ (∀ (T : DataFrame) (id : Z), id ∉ col campaign_id T →
         result (page_campaign_deep_dive T (Some id)) = Done tt
         ∧ st_dataframe [] ∈ rendered (page_campaign_deep_dive T (Some id))).
Proof.
  assert (3 ∉ col campaign_id scenario_A) as Hmiss.
  { apply (bool_decide_unpack _). by vm_compute. }
  split_and!; [done|by_eval|reflexivity|reflexivity|reflexivity|].
  intros Hclaim. destruct (Hclaim scenario_A 3 Hmiss) as [Hres _]. discriminate.
Qed.

(** C1, amended: an identifier that is not in the table selects no row, and
    the selectbox, filled from the table's own identifiers, does not offer
    it; for every identifier the selectbox offers, the page runs to the end
    and shows the matching rows, of which there is at least one, as its
    table. *)
Theorem deep_dive_selection (T : DataFrame) (id : Z)
    (Hmiss : id ∉ col campaign_id T) :
  selected_rows T (Some id) = []
  ∧ (id ∉ unique (col campaign_id T))
  ∧ ∀ id', id' ∈ unique (col campaign_id T) →
      ∃ row rest,
        selected_rows T (Some id') = row :: rest
        ∧ Forall (λ r, r ∈ T ∧ campaign_id r = id') (row :: rest)
        ∧ page_campaign_deep_dive T (Some id') =
            ([ st_title "Campaign Deep Dive";
               st_selectbox "Select Campaign" (unique (col campaign_id T));
               st_metric "Conversion Rate" (fmt_percent2 (conversion_rate row));
               st_metric "ROI" (fmt_fixed1_pct (roi_percent row));
               st_metric "CAC" (fmt_dollar2 (cac row));
               st_dataframe (row :: rest) ],
             Done tt).
Proof.
  split_and!.
  - by apply selected_rows_miss.
  - by rewrite elem_of_unique.
  - intros id' Hin. apply (proj1 (elem_of_unique _ _)) in Hin.
    pose proof (selected_rows_hit T id' Hin) as Hne.
    rewrite page_campaign_deep_dive_cases.
    destruct (selected_rows T (Some id')) as [|row rest] eqn:Hsel; [done|].
    exists row, rest. split_and!; [done| |done].
    apply Forall_forall. intros r Hr. rewrite <-Hsel in Hr.
    apply elem_of_selected_rows in Hr as [? ?]. by simplify_eq.
Qed.

Lemma deep_dive_selection_scenario_A :
  selected_rows scenario_A (Some 3) = []
  ∧ (3 ∉ unique (col campaign_id scenario_A))
  ∧ ∀ id', id' ∈ unique (col campaign_id scenario_A) →
      ∃ row rest,
        selected_rows scenario_A (Some id') = row :: rest
        ∧ Forall (λ r, r ∈ scenario_A ∧ campaign_id r = id') (row :: rest)
        ∧ page_campaign_deep_dive scenario_A (Some id') =
            ([ st_title "Campaign Deep Dive";
               st_selectbox "Select Campaign" (unique (col campaign_id scenario_A));
               st_metric "Conversion Rate" (fmt_percent2 (conversion_rate row));
               st_metric "ROI" (fmt_fixed1_pct (roi_percent row));
               st_metric "CAC" (fmt_dollar2 (cac row));
               st_dataframe (row :: rest) ],
             Done tt).
Proof.
  apply (deep_dive_selection scenario_A 3).
  apply (bool_decide_unpack _). by vm_compute.
Defined.

(** ** Calls over the object store *)

Lemma Py_bind_Done {A B : Type} (m : Py A) (f : A → Py B) h a h' :
  m h = Done (a, h') → (m ≫= f) h = f a h'.
Proof. unfold mbind, Py_bind. by intros ->. Qed.

Lemma lookup_fresh (h : gmap loc object) : h !! fresh (dom h) = None.
Proof. apply not_elem_of_dom, is_fresh. Qed.

Lemma new_Done (o : object) (h : gmap loc object) :
  new o h = Done (fresh (dom h), <[fresh (dom h) := o]> h).
Proof. done. Qed.

Lemma insert_fresh_subseteq (o : object) (h : gmap loc object) :
  h ⊆ <[fresh (dom h) := o]> h.
Proof. apply insert_subseteq, lookup_fresh. Qed.

Lemma getitem_Done {A : Type} (field : Row → A) h df T :
  h !! df = Some (ODataFrame T) → getitem df field h = Done (col field T, h).
Proof. unfold getitem. by intros ->. Qed.

Lemma getitem_mask_Done mask h df T :
  h !! df = Some (ODataFrame T) →
  getitem_mask df mask h =
    Done (fresh (dom h), <[fresh (dom h) := ODataFrame (df_mask T mask)]> h).
Proof. unfold getitem_mask. by intros ->. Qed.

Lemma iterrows_Done h df T :
  h !! df = Some (ODataFrame T) → iterrows df h = Done (T, h).
Proof. unfold iterrows. by intros ->. Qed.

(** A loop of appends to the list at [alerts] changes that object only. *)
Lemma for_each_append (entry : Row → Alert.t) (rows : list Row) alerts items h :
  h !! alerts = Some (OList items) →
  for_each rows (λ row, append alerts (entry row)) h =
    Done (tt, <[alerts := OList (items ++ (entry <$> rows))]> h).
Proof.
  revert items h. induction rows as [|row rows IH]; intros items h Hl.
  - simpl. rewrite app_nil_r, insert_id by done. done.
  - cbn [for_each]. erewrite Py_bind_Done; last first.
    { unfold append. rewrite Hl. done. }
    rewrite (IH (items ++ [entry row])) by by rewrite lookup_insert_eq.
    rewrite insert_insert_eq. cbn [fmap list_fmap]. by rewrite <-app_assoc.
Qed.

(** What a call of [overall_metrics] does to the store. *)
Lemma overall_metrics_py_Done h df T :
  h !! df = Some (ODataFrame T) →
  overall_metrics_py df h =
    Done (fresh (dom h), <[fresh (dom h) := ODict (overall_metrics T)]> h).
Proof.
  intros Hdf. unfold overall_metrics_py.
  do 4 (erewrite Py_bind_Done; [|by apply getitem_Done]).
  done.
Qed.

(** What a call of [campaign_alerts] does to the store: the objects that
    were there stay as they were, and the result is a new frame holding the
    alerts of the table at [df]. *)
Lemma campaign_alerts_py_Done h df T :
  h !! df = Some (ODataFrame T) →
  ∃ r h', campaign_alerts_py df h = Done (r, h')
    ∧ h ⊆ h'
    ∧ h !! r = None
    ∧ h' !! r = Some (OAlertFrame (campaign_alerts T)).
Proof.
  intros Hdf. unfold campaign_alerts_py.
  set (alerts := fresh (dom h)). set (h1 := <[alerts := OList []]> h).
  assert (h ⊆ h1) as Hsub1 by apply insert_fresh_subseteq.
  assert (h1 !! df = Some (ODataFrame T)) as Hdf1.
  { by apply (lookup_weaken h). }
  erewrite Py_bind_Done; [|apply new_Done]. fold alerts h1.
  do 2 (erewrite Py_bind_Done; [|by apply getitem_Done]).
  erewrite Py_bind_Done; [|by apply getitem_mask_Done].
  fold (low_conv_frame T).
  set (low_conv := fresh (dom h1)).
  set (h2 := <[low_conv := ODataFrame (low_conv_frame T)]> h1).
  assert (h1 ⊆ h2) as Hsub2 by apply insert_fresh_subseteq.
  assert (h2 !! df = Some (ODataFrame T)) as Hdf2.
  { by apply (lookup_weaken h1). }
  erewrite Py_bind_Done; [|by apply getitem_Done].
  erewrite Py_bind_Done; [|by apply getitem_mask_Done].
  fold (low_roi_frame T).
  set (low_roi := fresh (dom h2)).
  set (h3 := <[low_roi := ODataFrame (low_roi_frame T)]> h2).
  assert (h2 ⊆ h3) as Hsub3 by apply insert_fresh_subseteq.
  assert (h3 !! low_conv = Some (ODataFrame (low_conv_frame T))) as Hlc.
  { apply (lookup_weaken h2); [|done]. apply lookup_insert_eq. }
  assert (h3 !! low_roi = Some (ODataFrame (low_roi_frame T))) as Hlr.
  { apply lookup_insert_eq. }
  assert (h3 !! alerts = Some (OList [])) as Hal.
  { apply (lookup_weaken h1); [apply lookup_insert_eq|]. by etrans. }
  erewrite Py_bind_Done; [|by apply iterrows_Done].
  erewrite Py_bind_Done; [|by apply for_each_append].
  set (items1 := [] ++ (low_conv_entry <$> low_conv_frame T)).
  set (h4 := <[alerts := OList items1]> h3).
  assert (h4 !! low_roi = Some (ODataFrame (low_roi_frame T))) as Hlr4.
  { unfold h4. rewrite lookup_insert_ne; [done|]. intros Heq. rewrite Heq in Hal.
    rewrite Hlr in Hal. done. }
  erewrite Py_bind_Done; [|by apply iterrows_Done].
  erewrite Py_bind_Done; [|apply for_each_append; apply lookup_insert_eq].
  unfold h4 at 1. rewrite insert_insert_eq.
  set (items2 := items1 ++ (low_roi_entry <$> low_roi_frame T)).
  assert (items2 = campaign_alerts T) as Hitems.
  { unfold items2, items1, campaign_alerts. by rewrite !foldl_append. }
  set (h5 := <[alerts := OList items2]> h3).
  assert (h5 !! alerts = Some (OList items2)) as Hal5 by apply lookup_insert_eq.
  unfold DataFrame_of_list. rewrite Hal5, new_Done.
  set (r := fresh (dom h5)).
  assert (h ⊆ h5) as Hsub5.
  { apply map_subseteq_spec. intros l o Hl. unfold h5.
    rewrite lookup_insert_ne.
    - apply (lookup_weaken h); [done|]. by do 2 (etrans; [done|]).
    - intros <-. unfold alerts in Hl. by rewrite lookup_fresh in Hl. }
  exists r, (<[r := OAlertFrame items2]> h5). split_and!.
  - done.
  - etrans; [done|]. apply insert_fresh_subseteq.
  - destruct (h !! r) eqn:Hr; [|done].
    apply (lookup_weaken _ h5) in Hr; [|done].
    unfold r in Hr. by rewrite lookup_fresh in Hr.
  - by rewrite lookup_insert_eq, Hitems.
Qed.

Lemma overall_metrics_py_frame h df T :
  h !! df = Some (ODataFrame T) →
  ∃ r h', overall_metrics_py df h = Done (r, h')
    ∧ h ⊆ h'
    ∧ h !! r = None
    ∧ h' !! r = Some (ODict (overall_metrics T)).
Proof.
  intros Hdf. eexists _, _. split_and!.
  - by apply overall_metrics_py_Done.
  - apply insert_fresh_subseteq.
  - apply lookup_fresh.
  - apply lookup_insert_eq.
Qed.

(** C9: a call of [overall_metrics] or [campaign_alerts] on the table at
    [df] returns; afterwards the table at [df] is the same, every object
    that was in the store is the same, and the result is an object that was
    not in the store before. *)
Theorem calls_leave_the_table_unchanged (h : gmap loc object) (df : loc) (T : DataFrame)
    (Hdf : h !! df = Some (ODataFrame T)) :
  (∃ r h', overall_metrics_py df h = Done (r, h')
     ∧ h' !! df = Some (ODataFrame T)
     ∧ (∀ l o, h !! l = Some o → h' !! l = Some o)
     ∧ h !! r = None
     ∧ h' !! r = Some (ODict (overall_metrics T)))
  ∧ (∃ r h', campaign_alerts_py df h = Done (r, h')
     ∧ h' !! df = Some (ODataFrame T)
     ∧ (∀ l o, h !! l = Some o → h' !! l = Some o)
     ∧ h !! r = None
     ∧ h' !! r = Some (OAlertFrame (campaign_alerts T))).
Proof.
  split.
  - destruct (overall_metrics_py_frame h df T Hdf) as (r & h' & Hrun & Hsub & Hnew & Hr).
    exists r, h'. split_and!; [done| |intros l o Hl|done|done];
      by apply (lookup_weaken h).
  - destruct (campaign_alerts_py_Done h df T Hdf) as (r & h' & Hrun & Hsub & Hnew & Hr).
    exists r, h'. split_and!; [done| |intros l o Hl|done|done];
      by apply (lookup_weaken h).
Qed.

Lemma calls_leave_the_table_unchanged_store_A :
  (∃ r h', overall_metrics_py 1%positive store_A = Done (r, h')
     ∧ h' !! 1%positive = Some (ODataFrame scenario_A)
     ∧ (∀ l o, store_A !! l = Some o → h' !! l = Some o)
     ∧ store_A !! r = None
     ∧ h' !! r = Some (ODict (overall_metrics scenario_A)))
  ∧ (∃ r h', campaign_alerts_py 1%positive store_A = Done (r, h')
     ∧ h' !! 1%positive = Some (ODataFrame scenario_A)
     ∧ (∀ l o, store_A !! l = Some o → h' !! l = Some o)
     ∧ store_A !! r = None
     ∧ h' !! r = Some (OAlertFrame (campaign_alerts scenario_A))).
Proof.
  apply (calls_leave_the_table_unchanged store_A 1%positive scenario_A).
  reflexivity.
Defined.

Lemma twice_Done {A : Type} (call : Py A) (content : object) (at_ : A → loc) h :
  (∀ h0, h ⊆ h0 → ∃ r h', call h0 = Done (r, h')
      ∧ h0 ⊆ h' ∧ h0 !! at_ r = None ∧ h' !! at_ r = Some content) →
  ∃ r1 r2 h', twice call h = Done ((r1, r2), h')
    ∧ at_ r1 ≠ at_ r2
    ∧ h' !! at_ r1 = Some content
    ∧ h' !! at_ r2 = Some content.
Proof.
  intros Hcall. unfold twice.
  destruct (Hcall h) as (r1 & h1 & Hrun1 & Hsub1 & Hnew1 & Hr1); [done|].
  destruct (Hcall h1) as (r2 & h2 & Hrun2 & Hsub2 & Hnew2 & Hr2); [done|].
  exists r1, r2, h2. split_and!.
  - erewrite Py_bind_Done by done. erewrite Py_bind_Done by done. done.
  - intros Heq. rewrite <-Heq, Hr1 in Hnew2. done.
  - by apply (lookup_weaken h1).
  - done.
Qed.

(** C8: two calls of [campaign_alerts] in a row on the same table, and two
    calls of [overall_metrics], both return; the two results are distinct
    objects with identical content, which is determined by the table alone,
    whatever else the store holds. *)
Theorem repeated_calls_give_identical_output (h : gmap loc object) (df : loc)
    (T : DataFrame) (Hdf : h !! df = Some (ODataFrame T)) :
  (∃ r1 r2 h', twice (campaign_alerts_py df) h = Done ((r1, r2), h')
     ∧ r1 ≠ r2
     ∧ h' !! r1 = Some (OAlertFrame (campaign_alerts T))
     ∧ h' !! r2 = Some (OAlertFrame (campaign_alerts T)))
  ∧ (∃ r1 r2 h', twice (overall_metrics_py df) h = Done ((r1, r2), h')
     ∧ r1 ≠ r2
     ∧ h' !! r1 = Some (ODict (overall_metrics T))
     ∧ h' !! r2 = Some (ODict (overall_metrics T))).
Proof.
  split.
  - apply (twice_Done _ _ id). intros h0 Hsub.
    apply campaign_alerts_py_Done. by apply (lookup_weaken h).
  - apply (twice_Done _ _ id). intros h0 Hsub.
    apply overall_metrics_py_frame. by apply (lookup_weaken h).
Qed.

Lemma repeated_calls_give_identical_output_store_A :
  (∃ r1 r2 h', twice (campaign_alerts_py 1%positive) store_A = Done ((r1, r2), h')
     ∧ r1 ≠ r2
     ∧ h' !! r1 = Some (OAlertFrame (campaign_alerts scenario_A))
     ∧ h' !! r2 = Some (OAlertFrame (campaign_alerts scenario_A)))
  ∧ (∃ r1 r2 h', twice (overall_metrics_py 1%positive) store_A = Done ((r1, r2), h')
     ∧ r1 ≠ r2
     ∧ h' !! r1 = Some (ODict (overall_metrics scenario_A))
     ∧ h' !! r2 = Some (ODict (overall_metrics scenario_A))).
Proof.
  apply (repeated_calls_give_identical_output store_A 1%positive scenario_A).
  reflexivity.
Defined.

(** * Further properties *)

(** ** Shape of the alerts *)

Lemma elem_of_campaign_alerts (T : DataFrame) (a : Alert.t) :
  a ∈ campaign_alerts T ↔
    (∃ row, row ∈ T ∧ below_quantile T row ∧ a = low_conv_entry row)
    ∨ (∃ row, row ∈ T ∧ negative_roi row ∧ a = low_roi_entry row).
Proof.
  rewrite campaign_alerts_app, elem_of_app, !list_elem_of_fmap.
  split.
  - intros [(row & -> & Hrow)|(row & -> & Hrow)];
      apply list_elem_of_filter in Hrow as [? ?]; [left|right]; by exists row.
  - intros [(row & ? & ? & ->)|(row & ? & ? & ->)]; [left|right];
      exists row; (split; [done|]); by apply list_elem_of_filter.
Qed.

(** Every alert names a campaign of the table and carries one of the three
    combinations of issue, severity and recommendation that the two loops
    write; the severity of a Low Conversion Rate alert is never Critical
    and that of a Negative ROI alert is always Critical. *)
Theorem alerts_are_well_formed (T : DataFrame) :
  Forall (λ a,
    Alert.campaign_id a ∈ col campaign_id T
    ∧ ((Alert.issue a = "Low Conversion Rate"
        ∧ (Alert.severity a = "High" ∨ Alert.severity a = "Medium")
        ∧ Alert.recommendation a = "Reallocate budget or test new creative/channel mix")
       ∨ (Alert.issue a = "Negative ROI"
          ∧ Alert.severity a = "Critical"
          ∧ Alert.recommendation a =
              "Pause campaign immediately and investigate CAC drivers")))
    (campaign_alerts T).
Proof.
  apply Forall_forall. intros a Ha.
  apply elem_of_campaign_alerts in Ha as [(row & Hin & _ & ->)|(row & Hin & _ & ->)].
  - split; [simpl; unfold col; by apply list_elem_of_fmap_2|]. left. simpl.
    destruct (float_lt (roi_percent row) (Num 0)); auto.
  - split; [simpl; unfold col; by apply list_elem_of_fmap_2|]. right. done.
Qed.

Lemma NoDup_fmap_inj_on {A B : Type} (f : A → B) (l : list A) (x y : A) :
  NoDup (f <$> l) → x ∈ l → y ∈ l → f x = f y → x = y.
Proof.
  induction l as [|z l IH]; intros Hnd Hx Hy Hf; [by apply elem_of_nil in Hx|].
  cbn [fmap list_fmap] in Hnd. apply NoDup_cons in Hnd as [Hz Hnd].
  apply elem_of_cons in Hx as [->|Hx], Hy as [->|Hy].
  - done.
  - exfalso. apply Hz. rewrite Hf. by apply list_elem_of_fmap_2.
  - exfalso. apply Hz. rewrite <-Hf. by apply list_elem_of_fmap_2.
  - by apply IH.
Qed.

Lemma low_conv_entry_severity (row : Row) :
  Alert.severity (low_conv_entry row) = "High" ↔ negative_roi row.
Proof.
  unfold negative_roi. simpl.
  destruct (float_lt (roi_percent row) (Num 0)); simpl; split; (done || tauto).
Qed.

(** With one row per campaign, a Low Conversion Rate alert is High exactly
    when the same campaign also has a Negative ROI alert (and is Medium
    otherwise). *)
Theorem high_severity_iff_negative_roi_alert (T : DataFrame)
    (Hids : NoDup (col campaign_id T)) :
  Forall (λ a,
    is_low_conversion a →
    (Alert.severity a = "High" ↔
       ∃ b, b ∈ campaign_alerts T ∧ is_negative_roi b
            ∧ Alert.campaign_id b = Alert.campaign_id a))
    (campaign_alerts T).
Proof.
  apply Forall_forall. intros a Ha Hlow.
  apply elem_of_campaign_alerts in Ha as [(row & Hin & Hbelow & ->)|(row & _ & _ & ->)];
    [|discriminate Hlow].
  rewrite low_conv_entry_severity. split.
  - intros Hneg. exists (low_roi_entry row). split_and!; [|done|done].
    apply elem_of_campaign_alerts. right. by exists row.
  - intros (b & Hb & Hissue & Hid).
    apply elem_of_campaign_alerts in Hb as [(row' & _ & _ & ->)|(row' & Hin' & Hneg & ->)];
      [discriminate Hissue|].
    simpl in Hid.
    by rewrite <-(NoDup_fmap_inj_on campaign_id T row' row Hids Hin' Hin Hid).
Qed.

Lemma high_severity_iff_negative_roi_alert_scenario_A :
  Forall (λ a,
    is_low_conversion a →
    (Alert.severity a = "High" ↔
       ∃ b, b ∈ campaign_alerts scenario_A ∧ is_negative_roi b
            ∧ Alert.campaign_id b = Alert.campaign_id a))
    (campaign_alerts scenario_A).
Proof.
  apply (high_severity_iff_negative_roi_alert scenario_A).
  apply (bool_decide_unpack _). by vm_compute.
Defined.

Lemma length_filter_fmap {A B : Type} (P : B → Prop) `{!∀ b, Decision (P b)}
    (f : A → B) (l : list A) :
  length (filter P (f <$> l)) = length (filter (λ x, P (f x)) l).
Proof.
  induction l as [|x l IH]; [done|].
  cbn [fmap list_fmap]. rewrite !filter_cons.
  destruct (decide (P (f x))); simpl; by rewrite IH.
Qed.

Lemma length_filter_filter_le {A : Type} (P Q : A → Prop)
    `{!∀ x, Decision (P x)} `{!∀ x, Decision (Q x)} (l : list A) :
  (length (filter P (filter Q l)) ≤ length (filter P l))%nat.
Proof.
  induction l as [|x l IH]; [done|].
  rewrite (filter_cons Q), (filter_cons P).
  destruct (decide (Q x)), (decide (P x)); rewrite ?filter_cons;
    repeat case_decide; simpl; try done; lia.
Qed.

Lemma length_filter_key_le_1 {A : Type} (f : A → Z) (l : list A) (k : Z) :
  NoDup (f <$> l) → (length (filter (λ x, f x = k) l) ≤ 1)%nat.
Proof.
  induction l as [|x l IH]; intros Hnd; [simpl; lia|].
  cbn [fmap list_fmap] in Hnd. apply NoDup_cons in Hnd as [Hx Hnd].
  rewrite filter_cons. destruct (decide (f x = k)) as [<-|]; [|by apply IH].
  rewrite filter_nil_all; [simpl; lia|].
  intros y Hy Heq. apply Hx. rewrite <-Heq. by apply list_elem_of_fmap_2.
Qed.

(** With one row per campaign, a campaign has at most one alert of each
    kind, hence at most two alerts. *)
Theorem at_most_one_alert_per_rule (T : DataFrame) (id : Z)
    (Hids : NoDup (col campaign_id T)) :
  (length (filter (λ a, Alert.campaign_id a = id)
             (filter is_low_conversion (campaign_alerts T))) ≤ 1)%nat
  ∧ (length (filter (λ a, Alert.campaign_id a = id)
               (filter is_negative_roi (campaign_alerts T))) ≤ 1)%nat
  ∧ (length (filter (λ a, Alert.campaign_id a = id) (campaign_alerts T)) ≤ 2)%nat.
Proof.
  pose proof (length_filter_key_le_1 campaign_id T id Hids) as Hone.
  assert (length (filter (λ a, Alert.campaign_id a = id)
            (low_conv_entry <$> filter (below_quantile T) T)) ≤ 1)%nat as Hlow.
  { rewrite length_filter_fmap. simpl.
    etrans; [apply (length_filter_filter_le (λ row, campaign_id row = id))|done]. }
  assert (length (filter (λ a, Alert.campaign_id a = id)
            (low_roi_entry <$> filter negative_roi T)) ≤ 1)%nat as Hneg.
  { rewrite length_filter_fmap. simpl.
    etrans; [apply (length_filter_filter_le (λ row, campaign_id row = id))|done]. }
  split_and!.
  - by rewrite low_conversion_alerts_of.
  - by rewrite negative_roi_alerts_of.
  - rewrite campaign_alerts_app, filter_app, length_app. lia.
Qed.

Lemma at_most_one_alert_per_rule_scenario_A :
  (length (filter (λ a, Alert.campaign_id a = 1%Z)
             (filter is_low_conversion (campaign_alerts scenario_A))) ≤ 1)%nat
  ∧ (length (filter (λ a, Alert.campaign_id a = 1%Z)
               (filter is_negative_roi (campaign_alerts scenario_A))) ≤ 1)%nat
  ∧ (length (filter (λ a, Alert.campaign_id a = 1%Z) (campaign_alerts scenario_A)) ≤ 2)%nat.
Proof.
  apply (at_most_one_alert_per_rule scenario_A 1).
  apply (bool_decide_unpack _). by vm_compute.
Defined.

(** ** Where the 0.25-quantile lies *)

Lemma StronglySorted_lookup_le (s : list Qc) (i j : nat) (x y : Qc) :
  StronglySorted Qcle s → (i ≤ j)%nat → s !! i = Some x → s !! j = Some y → (x ≤ y)%Qc.
Proof.
  intros Hs. revert i j. induction Hs as [|z s Hs IH Hall]; intros i j Hij Hi Hj.
  - done.
  - destruct i as [|i], j as [|j]; simpl in *.
    + simplify_eq. apply Qcle_refl.
    + simplify_eq. rewrite Forall_forall in Hall. apply Hall.
      by apply list_elem_of_lookup_2 in Hj.
    + lia.
    + apply (IH i j); [lia|done|done].
Qed.

Lemma quarter_fraction_bounds (m : Z) :
  (0 ≤ Qc_of_Z (m `mod` 4) * quarter ≤ 1)%Qc.
Proof.
  pose proof (Z.mod_pos_bound m 4 ltac:(lia)) as [H0 H4].
  assert (0 ≤ quarter)%Qc as Hq by by vm_compute.
  split.
  - apply Qcmult_nonneg_nonneg; [|done].
    rewrite <-Z2Qc_inj_0. by apply (proj1 (Z2Qc_inj_le _ _)).
  - assert (Qc_of_Z 4 * quarter = 1)%Qc as <- by by_eval.
    apply Qcmult_le_mono_nonneg_r; [done|].
    apply (proj1 (Z2Qc_inj_le _ _)). lia.
Qed.

Lemma lerp_between (a b g : Qc) :
  (a ≤ b)%Qc → (0 ≤ g ≤ 1)%Qc → (a ≤ a + (b - a) * g ≤ b)%Qc.
Proof.
  intros Hab [Hg0 Hg1].
  assert (0 ≤ b - a)%Qc as Hd.
  { apply Qcle_minus_iff in Hab. by replace (b - a)%Qc with (b + - a)%Qc by ring. }
  split.
  - rewrite <-(Qcplus_0_r a) at 1. apply Qcplus_le_mono_l.
    by apply Qcmult_nonneg_nonneg.
  - replace b with (a + (b - a) * 1)%Qc at 2 by ring.
    apply Qcplus_le_mono_l. by apply Qcmult_le_mono_nonneg_l.
Qed.

(** The 0.25-quantile of a non-empty array lies between the sorted values
    at positions [m / 4] and [min (m / 4 + 1) m], where [m = n - 1]. *)
Lemma percentile_linear_between (xs : list Qc) :
  xs ≠ [] →
  let m := (Z.of_nat (length xs) - 1)%Z in
  ∃ a b,
    merge_sort Qcle xs !! Z.to_nat (m `div` 4) = Some a
    ∧ merge_sort Qcle xs !! Z.to_nat (Z.min (m `div` 4 + 1) m) = Some b
    ∧ (a ≤ percentile_linear xs quarter ≤ b)%Qc.
Proof.
  intros Hne m.
  assert (length (merge_sort Qcle xs) = length xs) as Hlen.
  { by rewrite merge_sort_Permutation. }
  assert (0 ≤ m)%Z as Hm by (unfold m; destruct xs; [done|simpl; lia]).
  assert (0 ≤ m `div` 4 ≤ m)%Z as Hk.
  { split; [apply Z.div_pos; lia|]. apply Z.div_le_upper_bound; lia. }
  destruct (lookup_lt_is_Some_2 (merge_sort Qcle xs) (Z.to_nat (m `div` 4)))
    as [a Ha]; [unfold m in *; lia|].
  destruct (lookup_lt_is_Some_2 (merge_sort Qcle xs)
              (Z.to_nat (Z.min (m `div` 4 + 1) m))) as [b Hb]; [unfold m in *; lia|].
  exists a, b. split; [done|]. split; [done|].
  rewrite percentile_linear_quarter. cbv zeta. fold m. rewrite Ha, Hb. simpl.
  apply lerp_between; [|apply quarter_fraction_bounds].
  apply (StronglySorted_lookup_le (merge_sort Qcle xs)
           (Z.to_nat (m `div` 4)) (Z.to_nat (Z.min (m `div` 4 + 1) m)) a b);
    [apply StronglySorted_merge_sort; apply _|lia|done|done].
Qed.

Lemma Series_quantile_Num (s : list float64) :
  dropna s ≠ [] → Series_quantile s quarter = Num (percentile_linear (dropna s) quarter).
Proof. unfold Series_quantile. by destruct (dropna s). Qed.

Lemma Series_quantile_NaN (s : list float64) :
  dropna s = [] → Series_quantile s quarter = NaN.
Proof. unfold Series_quantile. by intros ->. Qed.

(** A campaign whose conversion rate is the highest of the table, or is
    missing, is never in the low-conversion frame, so the loop never writes
    a Low Conversion Rate alert for it. *)
Theorem highest_conversion_never_flagged (T : DataFrame) (row : Row)
    (Hin : row ∈ T)
    (Htop : ∀ v, conversion_rate row = Num v →
              ∀ r w, r ∈ T → conversion_rate r = Num w → (w ≤ v)%Qc) :
  ¬ below_quantile T row ∧ row ∉ low_conv_frame T.
Proof.
  assert (¬ below_quantile T row) as Hnot.
  { unfold below_quantile. destruct (conversion_rate row) as [v|] eqn:Hv; [|by intros []].
    assert (v ∈ dropna (col conversion_rate T)) as Hvin.
    { apply elem_of_dropna. rewrite <-Hv. unfold col. by apply list_elem_of_fmap_2. }
    assert (dropna (col conversion_rate T) ≠ []) as Hne.
    { intros Hnil. rewrite Hnil in Hvin. by apply elem_of_nil in Hvin. }
    rewrite Series_quantile_Num by done.
    destruct (percentile_linear_between _ Hne) as (a & b & _ & Hb & _ & Hqb).
    apply list_elem_of_lookup_2 in Hb. rewrite merge_sort_Permutation in Hb.
    apply elem_of_dropna in Hb. unfold col in Hb.
    apply list_elem_of_fmap in Hb as (r & Hr & Hrin).
    assert (b ≤ v)%Qc as Hbv by by apply (Htop v eq_refl r b).
    simpl. intros Hlt%bool_decide_unpack.
    apply (Qclt_not_le _ _ Hlt). by etrans. }
  split; [done|]. rewrite low_conv_frame_filter, list_elem_of_filter. tauto.
Qed.

Lemma highest_conversion_never_flagged_scenario_A :
  ¬ below_quantile scenario_A (mkRow 2 "social" (dec 50 100) (dec 10 1) (dec 20 1) 200)
  ∧ mkRow 2 "social" (dec 50 100) (dec 10 1) (dec 20 1) 200 ∉ low_conv_frame scenario_A.
Proof.
  apply (highest_conversion_never_flagged scenario_A).
  - unfold scenario_A. set_solver.
  - intros v Hv r w Hr Hw. injection Hv as <-.
    unfold scenario_A in Hr.
    apply elem_of_cons in Hr as [->|Hr]; [|apply elem_of_cons in Hr as [->|Hr]].
    + injection Hw as <-. by vm_compute.
    + injection Hw as <-. by vm_compute.
    + by apply elem_of_nil in Hr.
Defined.

Lemma sorted_filter_lt_bound (s : list Qc) (q y : Qc) (j : nat) :
  StronglySorted Qcle s → s !! j = Some y → (q ≤ y)%Qc →
  (length (filter (λ x, (x < q)%Qc) s) ≤ j)%nat.
Proof.
  intros Hs. revert j. induction Hs as [|z s Hs IH Hall]; intros j Hj Hq; [done|].
  destruct j as [|j]; simpl in Hj.
  - simplify_eq. rewrite filter_nil_all; [done|].
    intros x Hx Hlt. apply (Qclt_not_le _ _ Hlt). etrans; [done|].
    apply elem_of_cons in Hx as [->|Hx]; [apply Qcle_refl|].
    rewrite Forall_forall in Hall. by apply Hall.
  - rewrite filter_cons. specialize (IH j Hj Hq).
    destruct (decide (z < q)%Qc); simpl; lia.
Qed.

Lemma length_filter_float_lt (s : list float64) (q : Qc) :
  length (filter (λ x, float_lt x (Num q)) s)
  = length (filter (λ v, (v < q)%Qc) (dropna s)).
Proof.
  unfold dropna. induction s as [|x s IH]; [done|].
  rewrite filter_cons. destruct x as [v|]; simpl.
  - rewrite filter_cons.
    destruct (decide (v < q)%Qc) as [Hlt|Hlt].
    + rewrite decide_True by by apply bool_decide_pack. simpl. by rewrite IH.
    + rewrite decide_False by (by intros ?%bool_decide_unpack). done.
  - done.
Qed.

Lemma length_low_conv_frame (T : DataFrame) :
  length (low_conv_frame T) =
    length (filter (λ x, float_lt x (Series_quantile (col conversion_rate T) quarter))
              (col conversion_rate T)).
Proof.
  rewrite low_conv_frame_filter. unfold col.
  by rewrite (length_filter_fmap
    (λ x, float_lt x (Series_quantile (conversion_rate <$> T) quarter))).
Qed.

Lemma length_dropna_le (s : list float64) : (length (dropna s) ≤ length s)%nat.
Proof.
  unfold dropna. induction s as [|[v|] s IH]; cbn in *; lia.
Qed.

(** At most a quarter of the campaigns, rounded up, get a Low Conversion
    Rate alert, and never all of them: with [n] rows that have a conversion
    rate, the number of those alerts is at most [(n + 3) / 4] and, when the
    table is not empty, less than the number of rows. *)
Theorem low_conversion_alerts_at_most_a_quarter (T : DataFrame) :
  let n := length (dropna (col conversion_rate T)) in
  let low := length (filter is_low_conversion (campaign_alerts T)) in
  (4 * low ≤ n + 3)%nat
  ∧ (4 * low ≤ length T + 3)%nat
  ∧ (T ≠ [] → low < length T)%nat.
Proof.
  cbv zeta. rewrite low_conversion_alerts_of, length_fmap.
  rewrite <-low_conv_frame_filter, length_low_conv_frame.
  pose proof (length_dropna_le (col conversion_rate T)) as Hle.
  assert (length (col conversion_rate T) = length T) as HlenT.
  { unfold col. by rewrite length_fmap. }
  destruct (decide (dropna (col conversion_rate T) = [])) as [Hnil|Hne].
  - rewrite Series_quantile_NaN by done.
    rewrite filter_nil_all by (intros [v|] _ []).
    rewrite Hnil. simpl. split_and!; [lia|lia|]. intros HT. destruct T; [done|simpl; lia].
  - rewrite Series_quantile_Num by done. rewrite length_filter_float_lt.
    set (xs := dropna (col conversion_rate T)) in *.
    destruct (percentile_linear_between xs Hne) as (a & b & _ & Hb & _ & Hqb).
    set (m := (Z.of_nat (length xs) - 1)%Z) in *.
    assert (length (filter (λ v, (v < percentile_linear xs quarter)%Qc) xs)
            ≤ Z.to_nat (Z.min (m `div` 4 + 1) m))%nat as Hbound.
    { assert (length (filter (λ v, (v < percentile_linear xs quarter)%Qc) xs)
              = length (filter (λ v, (v < percentile_linear xs quarter)%Qc)
                          (merge_sort Qcle xs))) as ->.
      { by rewrite merge_sort_Permutation. }
      apply (sorted_filter_lt_bound _ _ b); [|done|done].
      apply StronglySorted_merge_sort; apply _. }
    assert (0 ≤ m)%Z as Hm by (unfold m; destruct xs; [done|simpl; lia]).
    pose proof (Z.div_mod m 4 ltac:(lia)) as Hdm.
    pose proof (Z.mod_pos_bound m 4 ltac:(lia)) as Hmod.
    unfold m in *. split_and!; [lia|lia|intros _; lia].
Qed.

(** ** Row order *)

Lemma sum_clicks_Permutation (xs ys : list Z) :
  xs ≡ₚ ys → sum_clicks xs = sum_clicks ys.
Proof.
  unfold sum_clicks.
  induction 1 as [|x xs ys _ IH|x y xs|xs ys zs _ IH1 _ IH2]; simpl in *; lia.
Qed.

Lemma percentile_linear_Permutation (xs ys : list Qc) (q : Qc) :
  xs ≡ₚ ys → percentile_linear xs q = percentile_linear ys q.
Proof.
  intros Hp. unfold percentile_linear.
  assert (merge_sort Qcle xs = merge_sort Qcle ys) as ->; [|done].
  apply (Sorted_unique Qcle); [apply Sorted_merge_sort; apply _..|].
  by rewrite !merge_sort_Permutation.
Qed.

Lemma Series_quantile_Permutation (s t : list float64) (q : Qc) :
  s ≡ₚ t → Series_quantile s q = Series_quantile t q.
Proof.
  intros Hp. unfold Series_quantile.
  assert (dropna s ≡ₚ dropna t) as Hd by (unfold dropna; by rewrite Hp).
  destruct (dropna s) as [|x xs] eqn:Hs, (dropna t) as [|y ys] eqn:Ht.
  - done.
  - by apply Permutation_nil_cons in Hd.
  - symmetry in Hd. by apply Permutation_nil_cons in Hd.
  - by rewrite (percentile_linear_Permutation _ _ q Hd).
Qed.

(** [total_clicks] does not depend on the order of the rows, also when the
    64-bit sum wraps around. *)
Theorem total_clicks_row_order (T T' : DataFrame) (Hperm : T ≡ₚ T') :
  total_clicks (overall_metrics T) = total_clicks (overall_metrics T').
Proof.
  cbn [overall_metrics total_clicks]. rewrite !Series_sum_wrap. f_equal.
  apply sum_clicks_Permutation. unfold col. by rewrite Hperm.
Qed.

Lemma total_clicks_row_order_many_clicks :
  total_clicks (overall_metrics many_clicks)
  = total_clicks (overall_metrics (reverse many_clicks)).
Proof.
  apply total_clicks_row_order. apply Permutation_swap.
Defined.

(** Reordering the rows of the table reorders the alerts and changes
    nothing else: the same campaigns are flagged, for the same issues and
    with the same severities, and each kind of alert follows the new row
    order. *)
Theorem campaign_alerts_row_order (T T' : DataFrame) (Hperm : T ≡ₚ T') :
  campaign_alerts T ≡ₚ campaign_alerts T'
  ∧ filter is_low_conversion (campaign_alerts T') =
      low_conv_entry <$> filter (below_quantile T) T'
  ∧ filter is_negative_roi (campaign_alerts T') =
      low_roi_entry <$> filter negative_roi T'.
Proof.
  assert (Series_quantile (col conversion_rate T) quarter
          = Series_quantile (col conversion_rate T') quarter) as Hq.
  { apply Series_quantile_Permutation. unfold col. by rewrite Hperm. }
  assert (filter (below_quantile T') T' = filter (below_quantile T) T') as Hsame.
  { apply list_filter_iff. intros row. unfold below_quantile. by rewrite Hq. }
  split_and!.
  - rewrite !campaign_alerts_app, Hsame.
    apply Permutation_app; apply fmap_Permutation; by apply filter_Permutation.
  - by rewrite low_conversion_alerts_of, Hsame.
  - apply negative_roi_alerts_of.
Qed.

Lemma campaign_alerts_row_order_scenario_A :
  campaign_alerts scenario_A ≡ₚ campaign_alerts (reverse scenario_A)
  ∧ filter is_low_conversion (campaign_alerts (reverse scenario_A)) =
      low_conv_entry <$> filter (below_quantile scenario_A) (reverse scenario_A)
  ∧ filter is_negative_roi (campaign_alerts (reverse scenario_A)) =
      low_roi_entry <$> filter negative_roi (reverse scenario_A).
Proof.
  apply campaign_alerts_row_order. apply Permutation_swap.
Defined.

(** ** Averages *)

Lemma Qc_sum_lower (xs : list Qc) (a : Qc) :
  (∀ x, x ∈ xs → (a ≤ x)%Qc) →
  (Qc_of_Z (Z.of_nat (length xs)) * a ≤ Qc_sum xs)%Qc.
Proof.
  induction xs as [|x xs IH]; intros Hall.
  - change (Qc_of_Z 0 * a ≤ 0)%Qc. rewrite Z2Qc_inj_0, Qcmult_0_l. apply Qcle_refl.
  - rewrite Qc_sum_cons. cbn [length].
    rewrite Nat2Z.inj_succ, <-Z.add_1_l, Z2Qc_inj_add, Z2Qc_inj_1.
    replace ((1 + Qc_of_Z (Z.of_nat (length xs))) * a)%Qc
      with (a + Qc_of_Z (Z.of_nat (length xs)) * a)%Qc by ring.
    apply Qcplus_le_compat; [apply Hall; by left|].
    apply IH. intros y Hy. apply Hall. by right.
Qed.

Lemma Qc_sum_upper (xs : list Qc) (b : Qc) :
  (∀ x, x ∈ xs → (x ≤ b)%Qc) →
  (Qc_sum xs ≤ Qc_of_Z (Z.of_nat (length xs)) * b)%Qc.
Proof.
  induction xs as [|x xs IH]; intros Hall.
  - change (0 ≤ Qc_of_Z 0 * b)%Qc. rewrite Z2Qc_inj_0, Qcmult_0_l. apply Qcle_refl.
  - rewrite Qc_sum_cons. cbn [length].
    rewrite Nat2Z.inj_succ, <-Z.add_1_l, Z2Qc_inj_add, Z2Qc_inj_1.
    replace ((1 + Qc_of_Z (Z.of_nat (length xs))) * b)%Qc
      with (b + Qc_of_Z (Z.of_nat (length xs)) * b)%Qc by ring.
    apply Qcplus_le_compat; [apply Hall; by left|].
    apply IH. intros y Hy. apply Hall. by right.
Qed.

Lemma length_pos_Qc (xs : list Qc) :
  xs ≠ [] → (0 < Qc_of_Z (Z.of_nat (length xs)))%Qc.
Proof.
  intros Hne. rewrite <-Z2Qc_inj_0. apply (proj1 (Z2Qc_inj_lt 0 _)).
  destruct xs; [done|]. cbn [length]. lia.
Qed.

Lemma mean_lower (xs : list Qc) (a : Qc) :
  xs ≠ [] → (∀ x, x ∈ xs → (a ≤ x)%Qc) →
  (a ≤ Qc_sum xs / Qc_of_Z (Z.of_nat (length xs)))%Qc.
Proof.
  intros Hne Hall. pose proof (length_pos_Qc xs Hne) as Hn.
  set (n := Qc_of_Z (Z.of_nat (length xs))) in *.
  apply (Qcmult_le_mono_pos_r _ _ n Hn).
  rewrite (Qcmult_comm a n). unfold Qcdiv.
  rewrite <-Qcmult_assoc, (Qcmult_comm (/ n) n), Qcmult_inv_r, Qcmult_1_r.
  - by apply Qc_sum_lower.
  - by apply not_symmetry, Qclt_not_eq.
Qed.

Lemma mean_upper (xs : list Qc) (b : Qc) :
  xs ≠ [] → (∀ x, x ∈ xs → (x ≤ b)%Qc) →
  (Qc_sum xs / Qc_of_Z (Z.of_nat (length xs)) ≤ b)%Qc.
Proof.
  intros Hne Hall. pose proof (length_pos_Qc xs Hne) as Hn.
  set (n := Qc_of_Z (Z.of_nat (length xs))) in *.
  apply (Qcmult_le_mono_pos_r _ _ n Hn).
  rewrite (Qcmult_comm b n). unfold Qcdiv.
  rewrite <-Qcmult_assoc, (Qcmult_comm (/ n) n), Qcmult_inv_r, Qcmult_1_r.
  - by apply Qc_sum_upper.
  - by apply not_symmetry, Qclt_not_eq.
Qed.

Lemma Series_mean_nonneg (s : list float64) (m : Qc) :
  (∀ x, Num x ∈ s → (0 ≤ x)%Qc) → Series_mean s = Num m → (0 ≤ m)%Qc.
Proof.
  intros Hall. unfold Series_mean.
  assert (∀ x, x ∈ dropna s → (0 ≤ x)%Qc) as Hall'.
  { intros x Hx. by apply Hall, elem_of_dropna. }
  destruct (dropna s) as [|x xs] eqn:Hd; [done|]. intros [= <-].
  apply mean_lower; [done|]. intros y Hy. by apply Hall'.
Qed.

Lemma Series_mean_nonpos (s : list float64) (m : Qc) :
  (∀ x, Num x ∈ s → (x ≤ 0)%Qc) → Series_mean s = Num m → (m ≤ 0)%Qc.
Proof.
  intros Hall. unfold Series_mean.
  assert (∀ x, x ∈ dropna s → (x ≤ 0)%Qc) as Hall'.
  { intros x Hx. by apply Hall, elem_of_dropna. }
  destruct (dropna s) as [|x xs] eqn:Hd; [done|]. intros [= <-].
  apply mean_upper; [done|]. intros y Hy. by apply Hall'.
Qed.

Lemma elem_of_col_Num (field : Row → float64) (T : DataFrame) (x : Qc) :
  Num x ∈ col field T → ∃ row, row ∈ T ∧ field row = Num x.
Proof.
  unfold col. intros (row & Hrow & Hin)%list_elem_of_fmap. by exists row.
Qed.

(** Case analysis on the rows of a table given by its list of rows. *)
Ltac each_row H :=
  repeat (apply elem_of_cons in H as [->|H]); [..|by apply elem_of_nil in H].

(** The averages keep the sign of their column; missing cells do not
    count.  When no conversion rate and no CAC of the table is negative,
    [avg_conversion] and [avg_cac], when they are numbers, are not negative;
    [avg_roi] is not negative when no ROI is, and not positive when no ROI
    is. *)
Theorem averages_keep_the_sign (T : DataFrame)
    (Hconv : ∀ row x, row ∈ T → conversion_rate row = Num x → (0 ≤ x)%Qc)
    (Hcac : ∀ row x, row ∈ T → cac row = Num x → (0 ≤ x)%Qc) :
  (∀ m, avg_conversion (overall_metrics T) = Num m → (0 ≤ m)%Qc)
  ∧ (∀ m, avg_cac (overall_metrics T) = Num m → (0 ≤ m)%Qc)
  ∧ ((∀ row x, row ∈ T → roi_percent row = Num x → (0 ≤ x)%Qc) →
     ∀ m, avg_roi (overall_metrics T) = Num m → (0 ≤ m)%Qc)
  ∧ ((∀ row x, row ∈ T → roi_percent row = Num x → (x ≤ 0)%Qc) →
     ∀ m, avg_roi (overall_metrics T) = Num m → (m ≤ 0)%Qc).
Proof.
  cbn [overall_metrics avg_conversion avg_cac avg_roi]. split_and!.
  - intros m. apply Series_mean_nonneg.
    intros x (row & Hin & Hrow)%elem_of_col_Num. by apply (Hconv row).
  - intros m. apply Series_mean_nonneg.
    intros x (row & Hin & Hrow)%elem_of_col_Num. by apply (Hcac row).
  - intros Hroi m. apply Series_mean_nonneg.
    intros x (row & Hin & Hrow)%elem_of_col_Num. by apply (Hroi row).
  - intros Hroi m. apply Series_mean_nonpos.
    intros x (row & Hin & Hrow)%elem_of_col_Num. by apply (Hroi row).
Qed.

Lemma averages_keep_the_sign_losing :
  (∀ m, avg_conversion (overall_metrics losing) = Num m → (0 ≤ m)%Qc)
  ∧ (∀ m, avg_cac (overall_metrics losing) = Num m → (0 ≤ m)%Qc)
  ∧ ((∀ row x, row ∈ losing → roi_percent row = Num x → (0 ≤ x)%Qc) →
     ∀ m, avg_roi (overall_metrics losing) = Num m → (0 ≤ m)%Qc)
  ∧ ((∀ row x, row ∈ losing → roi_percent row = Num x → (x ≤ 0)%Qc) →
     ∀ m, avg_roi (overall_metrics losing) = Num m → (m ≤ 0)%Qc).
Proof.
  apply (averages_keep_the_sign losing).
  - intros row x Hin Hx. unfold losing in Hin.
    each_row Hin; injection Hx as <-; by vm_compute.
  - intros row x Hin Hx. unfold losing in Hin.
    each_row Hin; injection Hx as <-; by vm_compute.
Defined.

(** A negative average ROI is never silent: some campaign then has a
    Negative ROI alert of severity Critical. *)
Theorem negative_average_roi_has_alert (T : DataFrame) (m : Qc)
    (Havg : avg_roi (overall_metrics T) = Num m) (Hneg : (m < 0)%Qc) :
  ∃ a, a ∈ campaign_alerts T
       ∧ Alert.issue a = "Negative ROI"
       ∧ Alert.severity a = "Critical".
Proof.
  destruct (filter negative_roi T) as [|row rest] eqn:Hf.
  - exfalso. apply (Qclt_not_le _ _ Hneg).
    cbn [overall_metrics avg_roi] in Havg. revert Havg. unfold Series_mean.
    destruct (dropna (col roi_percent T)) as [|x xs] eqn:Hd; [done|]. intros [= <-].
    apply mean_lower; [done|]. intros y Hy. rewrite <-Hd in Hy.
    apply elem_of_dropna in Hy. unfold col in Hy.
    apply list_elem_of_fmap in Hy as (r & Hr & Hin).
    apply Qcnot_lt_le. intros Hlt.
    assert (r ∈ filter negative_roi T) as Hrin.
    { apply list_elem_of_filter. split; [|done].
      unfold negative_roi. rewrite <-Hr. simpl. by apply bool_decide_pack. }
    rewrite Hf in Hrin. by apply elem_of_nil in Hrin.
  - exists (low_roi_entry row). split; [|done].
    apply elem_of_campaign_alerts. right. exists row.
    assert (row ∈ filter negative_roi T) as Hrow by (rewrite Hf; by left).
    apply list_elem_of_filter in Hrow as [? ?]. done.
Qed.

Lemma negative_average_roi_has_alert_losing :
  ∃ a, a ∈ campaign_alerts losing
       ∧ Alert.issue a = "Negative ROI"
       ∧ Alert.severity a = "Critical".
Proof.
  apply (negative_average_roi_has_alert losing (Q2Qc (-3 # 1))).
  - by_eval.
  - by vm_compute.
Defined.

(** ** The selectbox and the selected rows *)

Lemma unique_from (s seen : list Z) :
  foldl (λ seen x, if decide (x ∈ seen) then seen else seen ++ [x]) seen s
  = seen ++ filter (λ y, y ∉ seen) (unique s).
Proof.
  unfold unique. revert seen. induction s as [|x s IH]; intros seen.
  - simpl. by rewrite app_nil_r.
  - cbn [foldl]. rewrite (decide_False (P := x ∈ [])) by apply not_elem_of_nil.
    rewrite app_nil_l, (IH [x]), IH. clear IH.
    set (U := foldl _ [] s).
    destruct (decide (x ∈ seen)) as [Hx|Hx].
    + f_equal. change ([x] ++ ?l) with (x :: l).
      rewrite filter_cons, decide_False by tauto.
      rewrite list_filter_filter. apply list_filter_iff. intros y.
      rewrite list_elem_of_singleton. split; [|tauto].
      intros Hy. split; [done|]. by intros ->.
    + rewrite <-app_assoc. f_equal. change ([x] ++ ?l) with (x :: l).
      rewrite filter_cons, decide_True by done. f_equal.
      rewrite list_filter_filter. apply list_filter_iff. intros y.
      rewrite elem_of_app, !list_elem_of_singleton. tauto.
Qed.

Lemma unique_cons (x : Z) (s : list Z) :
  unique (x :: s) = x :: filter (λ y, y ≠ x) (unique s).
Proof.
  unfold unique at 1. cbn [foldl].
  rewrite (decide_False (P := x ∈ [])) by apply not_elem_of_nil.
  rewrite app_nil_l, unique_from. change ([x] ++ ?l) with (x :: l). f_equal.
  apply list_filter_iff. intros y. by rewrite list_elem_of_singleton.
Qed.

Lemma NoDup_unique (s : list Z) : NoDup (unique s).
Proof.
  induction s as [|x s IH]; [apply NoDup_nil_2|].
  rewrite unique_cons. apply NoDup_cons. split.
  - rewrite list_elem_of_filter. tauto.
  - by apply NoDup_filter.
Qed.

Lemma filter_all {A : Type} (P : A → Prop) `{!∀ x, Decision (P x)} (l : list A) :
  (∀ x, x ∈ l → P x) → filter P l = l.
Proof.
  induction l as [|x l IH]; intros Hall; [done|].
  rewrite filter_cons, decide_True by (apply Hall; by left).
  f_equal. apply IH. intros y Hy. apply Hall. by right.
Qed.

Lemma unique_NoDup (s : list Z) : NoDup s → unique s = s.
Proof.
  induction 1 as [|x s Hx _ IH]; [done|].
  rewrite unique_cons, IH. f_equal.
  apply filter_all. by intros y Hy ->.
Qed.

(** The selectbox of the Deep Dive page is filled before anything can
    fail, and offers every campaign identifier of the table exactly once, in
    order of first appearance (the table's own order when it has one row per
    campaign). *)
Theorem selectbox_offers_each_campaign_once (T : DataFrame) (sel : Selection) :
  let options := unique (col campaign_id T) in
  rendered (page_campaign_deep_dive T sel) !! 1%nat
    = Some (st_selectbox "Select Campaign" options)
  ∧ NoDup options
  ∧ (∀ id, id ∈ options ↔ ∃ row, row ∈ T ∧ campaign_id row = id)
  ∧ (∀ row T', T = row :: T' →
       options = campaign_id row
                 :: filter (λ id, id ≠ campaign_id row) (unique (col campaign_id T')))
  ∧ (NoDup (col campaign_id T) → options = col campaign_id T).
Proof.
  cbv zeta. split_and!.
  - rewrite page_campaign_deep_dive_cases. by destruct (selected_rows T sel).
  - apply NoDup_unique.
  - intros id. rewrite elem_of_unique. unfold col. rewrite list_elem_of_fmap.
    split; intros (row & ? & ?); exists row; by split.
  - intros row T' ->. apply unique_cons.
  - apply unique_NoDup.
Qed.

Lemma selected_rows_cons (row : Row) (T : DataFrame) (sel : Selection) :
  selected_rows (row :: T) sel =
    if decide (Some (campaign_id row) = sel)
    then row :: selected_rows T sel else selected_rows T sel.
Proof.
  rewrite !selected_rows_filter, filter_cons.
  destruct (decide (Some (campaign_id row) = sel)) as [Heq|Hne].
  - by rewrite decide_True by by apply bool_decide_pack.
  - by rewrite decide_False by (by intros ?%bool_decide_unpack).
Qed.

Lemma selected_rows_app (T1 T2 : DataFrame) (sel : Selection) :
  selected_rows (T1 ++ T2) sel = selected_rows T1 sel ++ selected_rows T2 sel.
Proof. by rewrite !selected_rows_filter, filter_app. Qed.

(** The Deep Dive page shows the rows of the selected campaign in table
    order and takes its three metrics from the first of them: rows above
    it with other identifiers do not matter. *)
Theorem deep_dive_shows_first_match (T1 T2 : DataFrame) (row : Row)
    (Hfirst : campaign_id row ∉ col campaign_id T1) :
  page_campaign_deep_dive (T1 ++ row :: T2) (Some (campaign_id row)) =
    ([ st_title "Campaign Deep Dive";
       st_selectbox "Select Campaign" (unique (col campaign_id (T1 ++ row :: T2)));
       st_metric "Conversion Rate" (fmt_percent2 (conversion_rate row));
       st_metric "ROI" (fmt_fixed1_pct (roi_percent row));
       st_metric "CAC" (fmt_dollar2 (cac row));
       st_dataframe (row :: selected_rows T2 (Some (campaign_id row))) ],
     Done tt).
Proof.
  rewrite page_campaign_deep_dive_cases, selected_rows_app.
  rewrite (selected_rows_miss T1) by done.
  by rewrite selected_rows_cons, decide_True by done.
Qed.

Lemma deep_dive_shows_first_match_repeated_id :
  page_campaign_deep_dive repeated_id (Some 1) =
    ([ st_title "Campaign Deep Dive";
       st_selectbox "Select Campaign" [1; 2];
       st_metric "Conversion Rate" (fmt_percent2 (dec 10 100));
       st_metric "ROI" (fmt_fixed1_pct (dec (-5) 1));
       st_metric "CAC" (fmt_dollar2 (dec 20 1));
       st_dataframe
         [ mkRow 1 "email" (dec 10 100) (dec 20 1) (dec (-5) 1) 100;
           mkRow 1 "display" (dec 70 100) (dec 30 1) (dec 40 1) 300 ] ],
     Done tt).
Proof.
  apply (deep_dive_shows_first_match []
           [ mkRow 2 "social" (dec 50 100) (dec 10 1) (dec 20 1) 200;
             mkRow 1 "display" (dec 70 100) (dec 30 1) (dec 40 1) 300 ]
           (mkRow 1 "email" (dec 10 100) (dec 20 1) (dec (-5) 1) 100)).
  apply not_elem_of_nil.
Defined.

Lemma selected_rows_unique_id (T : DataFrame) (row : Row) :
  NoDup (col campaign_id T) → row ∈ T →
  selected_rows T (Some (campaign_id row)) = [row].
Proof.
  unfold col. induction T as [|r T IH]; intros Hnd Hin; [by apply elem_of_nil in Hin|].
  cbn [fmap list_fmap] in Hnd. apply NoDup_cons in Hnd as [Hr Hnd].
  rewrite selected_rows_cons. apply elem_of_cons in Hin as [->|Hin].
  - rewrite decide_True by done. f_equal. by apply selected_rows_miss.
  - rewrite decide_False; [by apply IH|].
    intros [= Heq]. apply Hr. rewrite Heq. by apply list_elem_of_fmap_2.
Qed.

(** With one row per campaign, selecting a campaign of the table shows
    that row alone: its three metrics and a one-row table, without error. *)
Theorem deep_dive_unique_id_shows_one_row (T : DataFrame) (row : Row)
    (Hids : NoDup (col campaign_id T)) (Hin : row ∈ T) :
  selected_rows T (Some (campaign_id row)) = [row]
  ∧ page_campaign_deep_dive T (Some (campaign_id row)) =
      ([ st_title "Campaign Deep Dive";
         st_selectbox "Select Campaign" (col campaign_id T);
         st_metric "Conversion Rate" (fmt_percent2 (conversion_rate row));
         st_metric "ROI" (fmt_fixed1_pct (roi_percent row));
         st_metric "CAC" (fmt_dollar2 (cac row));
         st_dataframe [row] ],
       Done tt).
Proof.
  pose proof (selected_rows_unique_id T row Hids Hin) as Hsel.
  split; [done|].
  by rewrite page_campaign_deep_dive_cases, Hsel, unique_NoDup.
Qed.

Lemma deep_dive_unique_id_shows_one_row_scenario_A :
  selected_rows scenario_A (Some 2)
    = [mkRow 2 "social" (dec 50 100) (dec 10 1) (dec 20 1) 200]
  ∧ page_campaign_deep_dive scenario_A (Some 2) =
      ([ st_title "Campaign Deep Dive";
         st_selectbox "Select Campaign" [1; 2];
         st_metric "Conversion Rate" (fmt_percent2 (dec 50 100));
         st_metric "ROI" (fmt_fixed1_pct (dec 20 1));
         st_metric "CAC" (fmt_dollar2 (dec 10 1));
         st_dataframe [mkRow 2 "social" (dec 50 100) (dec 10 1) (dec 20 1) 200] ],
       Done tt).
Proof.
  apply (deep_dive_unique_id_shows_one_row scenario_A
           (mkRow 2 "social" (dec 50 100) (dec 10 1) (dec 20 1) 200)).
  - apply (bool_decide_unpack _). by vm_compute.
  - unfold scenario_A. set_solver.
Defined.

(** ** The script as a whole *)

(** Once the tables are loaded, the only way a run of the script stops with
    an exception is the Deep Dive page with no row for the selection, and
    the exception is [IndexError]; the footer is then not rendered.  Every
    other run, on any table (the empty one included), finishes, and the
    footer is the last thing rendered. *)
Theorem app_stops_only_on_empty_selection (campaign_df : DataFrame)
    (channel_df : list ChannelRow) (segment_df : list SegmentRow)
    (page : Page) (selected_campaign : Selection) (now : string) :
  let run := app campaign_df channel_df segment_df page selected_campaign now in
  let empty_selection :=
    page = CampaignDeepDive ∧ selected_rows campaign_df selected_campaign = [] in
  (empty_selection → result run = Raised IndexError ∧ st_caption now ∉ rendered run)
  ∧ (¬ empty_selection →
       result run = Done tt ∧ last (rendered run) = Some (st_caption now))
  ∧ (∀ e, result run = Raised e ↔ e = IndexError ∧ empty_selection).
Proof.
  cbv zeta. unfold app.
  destruct page; try (split_and!;
    [ intros [[=] _]
    | intros _; split; reflexivity
    | intros e; split; [intros [=] | intros [_ [[=] _]]] ]).
  rewrite page_campaign_deep_dive_cases.
  destruct (selected_rows campaign_df selected_campaign) as [|row rest] eqn:Hsel.
  - split_and!.
    + intros _. split; [reflexivity|]. cbn. rewrite !elem_of_cons, elem_of_nil.
      intros [?|[?|?]]; done.
    + intros Hne. exfalso. by apply Hne.
    + intros e. cbn. split; [by intros [= <-]|by intros [-> _]].
  - split_and!.
    + intros [_ [=]].
    + intros _. split; reflexivity.
    + intros e. cbn. split; [intros [=]|intros [_ [_ [=]]]].
Qed.

(** The script computes the metrics and then the alerts from the same
    table object: both calls return, the alerts are those of the table as it
    was loaded (the first call has not changed it), the two results are
    distinct new objects, and everything that was in the store is as
    before. *)
Theorem metrics_then_alerts_on_the_loaded_table (h : gmap loc object)
    (campaign_df : loc) (T : DataFrame)
    (Hdf : h !! campaign_df = Some (ODataFrame T)) :
  ∃ metrics alerts_df h',
    compute_metrics_and_alerts campaign_df h = Done ((metrics, alerts_df), h')
    ∧ h' !! metrics = Some (ODict (overall_metrics T))
    ∧ h' !! alerts_df = Some (OAlertFrame (campaign_alerts T))
    ∧ h' !! campaign_df = Some (ODataFrame T)
    ∧ metrics ≠ alerts_df
    ∧ h !! metrics = None ∧ h !! alerts_df = None
    ∧ (∀ l o, h !! l = Some o → h' !! l = Some o).
Proof.
  destruct (overall_metrics_py_frame h campaign_df T Hdf)
    as (m & h1 & Hrun1 & Hsub1 & Hnew1 & Hm).
  assert (h1 !! campaign_df = Some (ODataFrame T)) as Hdf1 by by apply (lookup_weaken h).
  destruct (campaign_alerts_py_Done h1 campaign_df T Hdf1)
    as (a & h2 & Hrun2 & Hsub2 & Hnew2 & Ha).
  exists m, a, h2. unfold compute_metrics_and_alerts. split_and!.
  - erewrite Py_bind_Done by done. erewrite Py_bind_Done by done. done.
  - by apply (lookup_weaken h1).
  - done.
  - by apply (lookup_weaken h1).
  - intros ->. by rewrite Hm in Hnew2.
  - done.
  - destruct (h !! a) eqn:Hha; [|done].
    apply (lookup_weaken _ h1) in Hha; [|done]. by rewrite Hha in Hnew2.
  - intros l o Hl. apply (lookup_weaken h1); [|done]. by apply (lookup_weaken h).
Qed.

Lemma metrics_then_alerts_on_the_loaded_table_store_A :
  ∃ metrics alerts_df h',
    compute_metrics_and_alerts 1%positive store_A = Done ((metrics, alerts_df), h')
    ∧ h' !! metrics = Some (ODict (overall_metrics scenario_A))
    ∧ h' !! alerts_df = Some (OAlertFrame (campaign_alerts scenario_A))
    ∧ h' !! 1%positive = Some (ODataFrame scenario_A)
    ∧ metrics ≠ alerts_df
    ∧ store_A !! metrics = None ∧ store_A !! alerts_df = None
    ∧ (∀ l o, store_A !! l = Some o → h' !! l = Some o).
Proof.
  apply (metrics_then_alerts_on_the_loaded_table store_A 1%positive scenario_A).
  reflexivity.
Defined.
